(** * QuBindR: constraint matching and figure-of-merit optimisation

    A shallow embedding of the quantum-resource binder: the data types of
    [qutypes.py], the expression utilities of [constraint_utils.py], the
    two-phase engine of [qubind.py] and the ranking tail of [api.py].

    Modelling conventions.
    - Python [float] values are real numbers ([R]): rounding, overflow, NaN
      and infinities are outside the model.  A float literal that denotes a
      non-finite value ([inf], [nan]) yields the marker [NonFinite].
    - Python [int] is [Z]; [str] is [string], read as ASCII text.
    - A [dict] is a [gmap], iterated through [map_to_list]; a [set] is a
      [gset].
    - Code that can raise returns a [result]; [try]/[except] is a match on
      the raised exception. *)

From Stdlib Require Import ZArith Reals Lra Lia String Ascii List Permutation Sorted.
From stdpp Require Import base gmap strings list fin_maps.

(** ** Exceptions and results

    [ValidationError] is the rejection of a field by the model base class
    and [HTTPException] the error of the web layer; both are kept apart
    from the [ValueError]s the program raises itself.  [NonFinite] is not
    an exception of the program: it marks a value the model has no real
    number for. *)

Inductive exn :=
| ValueError (msg : string)
| TypeError
| ZeroDivisionError
| ValidationError
| RecursionError
| HTTPException (status_code : Z)
| NonFinite.

Inductive result (A : Type) :=
| Ok (a : A)
| Raise (e : exn).

Arguments Ok {A} a.
Arguments Raise {A} e.

#[global] Instance result_ret : MRet result := @Ok.

#[global] Instance result_bind : MBind result :=
  fun A B f m => match m with Ok a => f a | Raise e => Raise e end.

#[global] Instance result_fmap : FMap result :=
  fun A B f m => match m with Ok a => Ok (f a) | Raise e => Raise e end.

(** [try: body except ValueError: handler] *)
Definition try_except_ValueError {A} (body handler : result A) : result A :=
  match body with
  | Raise (ValueError _) => handler
  | r => r
  end.

(** [try: body except Exception as e: handler e] *)
Definition try_except_Exception {A} (body : result A) (handler : exn -> result A) : result A :=
  match body with
  | Raise e => handler e
  | r => r
  end.

(** ** Strings: the [str] methods the program uses *)

Definition is_space (c : ascii) : bool :=
  let n := N_of_ascii c in
  ((9 <=? n)%N && (n <=? 13)%N) || ((28 <=? n)%N && (n <=? 32)%N).

Definition digit_of (c : ascii) : option Z :=
  let n := N_of_ascii c in
  if ((48 <=? n)%N && (n <=? 57)%N) then Some (Z.of_N n - 48)%Z else None.

Definition lower (c : ascii) : ascii :=
  let n := N_of_ascii c in
  if ((65 <=? n)%N && (n <=? 90)%N) then ascii_of_N (n + 32) else c.

Fixpoint lower_string (s : string) : string :=
  match s with
  | EmptyString => EmptyString
  | String c s' => String (lower c) (lower_string s')
  end.

(** [s.startswith(p)] *)
Definition startswith (s p : string) : bool := String.prefix p s.

(** [sub in s] on strings. *)
Fixpoint py_in (sub s : string) : bool :=
  String.prefix sub s ||
  match s with
  | EmptyString => false
  | String _ s' => py_in sub s'
  end.

(** [s.split(sep)] for a non-empty separator: a left-to-right scan cutting at
    each occurrence that does not overlap the previous one.  [skip] counts
    the characters of a matched separator still to be passed over. *)
Fixpoint split_from (sep : string) (skip : nat) (s : string) : list string :=
  match s with
  | EmptyString => [EmptyString]
  | String c s' =>
      match skip with
      | S k => split_from sep k s'
      | O =>
          if String.prefix sep s
          then EmptyString :: split_from sep (String.length sep - 1) s'
          else match split_from sep 0 s' with
               | p :: ps => String c p :: ps
               | [] => [String c EmptyString]
               end
      end
  end.

Definition py_split (s sep : string) : list string := split_from sep 0 s.

(** [s.count(sep)]: the number of non-overlapping occurrences. *)
Fixpoint count_from (sep : string) (skip : nat) (s : string) : nat :=
  match s with
  | EmptyString => 0
  | String c s' =>
      match skip with
      | S k => count_from sep k s'
      | O =>
          if String.prefix sep s
          then S (count_from sep (String.length sep - 1) s')
          else count_from sep 0 s'
      end
  end.

Definition py_count (s sep : string) : nat := count_from sep 0 s.

Fixpoint lstrip (s : string) : string :=
  match s with
  | EmptyString => EmptyString
  | String c s' => if is_space c then lstrip s' else s
  end.

Fixpoint rstrip (s : string) : string :=
  match s with
  | EmptyString => EmptyString
  | String c s' =>
      match rstrip s' with
      | EmptyString => if is_space c then EmptyString else String c EmptyString
      | r => String c r
      end
  end.

(** [s.strip()] *)
Definition py_strip (s : string) : string := lstrip (rstrip s).

Fixpoint repeat_string (s : string) (n : nat) : string :=
  match n with
  | O => EmptyString
  | S k => s +:+ repeat_string s k
  end.

(** ** Numeric literals: [int(s)] and [float(s)]

    Both are character automata: any character outside the literal's
    alphabet rejects the string. *)

Fixpoint run {St : Type} (step : St -> ascii -> option St) (st : St) (s : string) : option St :=
  match s with
  | EmptyString => Some st
  | String c s' =>
      match step st c with
      | Some st' => run step st' s'
      | None => None
      end
  end.

Definition split_sign (s : string) : bool * string :=
  match s with
  | String "+"%char r => (false, r)
  | String "-"%char r => (true, r)
  | _ => (false, s)
  end.

Inductive int_phase := IStart | IDigit | IUnderscore.

Definition int_step (st : int_phase * Z) (c : ascii) : option (int_phase * Z) :=
  match digit_of c with
  | Some d => Some (IDigit, (10 * st.2 + d)%Z)
  | None =>
      match st.1 with
      | IDigit => if Ascii.eqb c "_" then Some (IUnderscore, st.2) else None
      | _ => None
      end
  end.

Definition py_int (s : string) : result Z :=
  let '(neg, body) := split_sign (py_strip s) in
  match run int_step (IStart, 0%Z) body with
  | Some (IDigit, n) => Ok (if neg then (- n)%Z else n)
  | _ => Raise (ValueError "invalid literal for int() with base 10")
  end.

Inductive float_phase :=
| FStart | FInt | FIntUs | FDot0 | FDot1 | FFrac | FFracUs
| FExp0 | FExpSign | FExp | FExpUs.

Record float_acc := {
  phase : float_phase;
  mant : Z;       (* all digits of the integer and fraction parts *)
  fdigits : Z;    (* number of fraction digits *)
  eneg : bool;    (* sign of the exponent *)
  eabs : Z        (* digits of the exponent *)
}.

Definition float_start : float_acc :=
  {| phase := FStart; mant := 0; fdigits := 0; eneg := false; eabs := 0 |}.

Definition float_step (a : float_acc) (c : ascii) : option float_acc :=
  match digit_of c with
  | Some d =>
      match phase a with
      | FStart | FInt | FIntUs =>
          Some {| phase := FInt; mant := 10 * mant a + d; fdigits := fdigits a;
                  eneg := eneg a; eabs := eabs a |}
      | FDot0 | FDot1 | FFrac | FFracUs =>
          Some {| phase := FFrac; mant := 10 * mant a + d; fdigits := fdigits a + 1;
                  eneg := eneg a; eabs := eabs a |}
      | FExp0 | FExpSign | FExp | FExpUs =>
          Some {| phase := FExp; mant := mant a; fdigits := fdigits a;
                  eneg := eneg a; eabs := 10 * eabs a + d |}
      end%Z
  | None =>
      let goto p := Some {| phase := p; mant := mant a; fdigits := fdigits a;
                            eneg := eneg a; eabs := eabs a |} in
      if Ascii.eqb c "_" then
        match phase a with
        | FInt => goto FIntUs
        | FFrac => goto FFracUs
        | FExp => goto FExpUs
        | _ => None
        end
      else if Ascii.eqb c "." then
        match phase a with
        | FStart => goto FDot0
        | FInt => goto FDot1
        | _ => None
        end
      else if Ascii.eqb c "e" || Ascii.eqb c "E" then
        match phase a with
        | FInt | FDot1 | FFrac => goto FExp0
        | _ => None
        end
      else if Ascii.eqb c "+" || Ascii.eqb c "-" then
        match phase a with
        | FExp0 => Some {| phase := FExpSign; mant := mant a; fdigits := fdigits a;
                           eneg := Ascii.eqb c "-"; eabs := eabs a |}
        | _ => None
        end
      else None
  end.

Definition float_accepting (p : float_phase) : bool :=
  match p with
  | FInt | FDot1 | FFrac | FExp => true
  | _ => false
  end.

(** The decimal [m * 10^e] as a real number. *)
Definition float_of_decimal (m e : Z) : R := (IZR m * powerRZ 10 e)%R.

(** The literal as (mantissa, decimal exponent). *)
Definition py_float_decimal (s : string) : result (Z * Z) :=
  let '(neg, body) := split_sign (py_strip s) in
  let name := lower_string body in
  if String.eqb name "inf" || String.eqb name "infinity" || String.eqb name "nan"
  then Raise NonFinite
  else
    match run float_step float_start body with
    | Some a =>
        if float_accepting (phase a)
        then Ok (if neg then - mant a else mant a,
                 (if eneg a then - eabs a else eabs a) - fdigits a)%Z
        else Raise (ValueError "could not convert string to float")
    | None => Raise (ValueError "could not convert string to float")
    end.

Definition py_float (s : string) : result R :=
  me ← py_float_decimal s; mret (float_of_decimal me.1 me.2).

(** ** Dynamically typed values

    The values a property, a comparison value or an expression can have. *)

#[local] Set Warnings "-register-all".

Inductive pyvalue :=
| VNone
| VBool (b : bool)
| VInt (n : Z)
| VFloat (x : R)
| VStr (s : string)
| VList (l : list pyvalue)
| VSet (l : list pyvalue)
| VDict (l : list (pyvalue * pyvalue)).

#[global] Instance Req_decision : RelDecision (@eq R) := Req_dec_T.
#[global] Instance Rlt_decision : RelDecision Rlt := Rlt_dec.
#[global] Instance Rle_decision : RelDecision Rle := Rle_dec.

(** Numbers: [bool] is a subtype of [int]. *)
Inductive number :=
| NInt (n : Z)
| NFloat (x : R).

Definition as_number (v : pyvalue) : option number :=
  match v with
  | VBool b => Some (NInt (Z.b2z b))
  | VInt n => Some (NInt n)
  | VFloat x => Some (NFloat x)
  | _ => None
  end.

Definition number_R (a : number) : R :=
  match a with
  | NInt n => IZR n
  | NFloat x => x
  end.

Definition number_eqb (a b : number) : bool :=
  match a, b with
  | NInt m, NInt n => Z.eqb m n
  | _, _ => bool_decide (number_R a = number_R b)
  end.

Inductive cmp_op := CmpLt | CmpLe | CmpGt | CmpGe.

Definition number_cmp (op : cmp_op) (a b : number) : bool :=
  match a, b with
  | NInt m, NInt n =>
      match op with
      | CmpLt => Z.ltb m n
      | CmpLe => Z.leb m n
      | CmpGt => Z.ltb n m
      | CmpGe => Z.leb n m
      end
  | _, _ =>
      let x := number_R a in
      let y := number_R b in
      match op with
      | CmpLt => bool_decide (x < y)%R
      | CmpLe => bool_decide (x <= y)%R
      | CmpGt => bool_decide (y < x)%R
      | CmpGe => bool_decide (y <= x)%R
      end
  end.

Definition nat_cmp (op : cmp_op) (m n : nat) : bool :=
  match op with
  | CmpLt => Nat.ltb m n
  | CmpLe => Nat.leb m n
  | CmpGt => Nat.ltb n m
  | CmpGe => Nat.leb n m
  end.

Definition string_cmp (op : cmp_op) (s t : string) : bool :=
  match op with
  | CmpLt => String.ltb s t
  | CmpLe => String.leb s t
  | CmpGt => String.ltb t s
  | CmpGe => String.leb t s
  end.

(** [a == b] *)
Fixpoint py_eq (a b : pyvalue) {struct a} : bool :=
  match a, b with
  | VNone, VNone => true
  | VStr s, VStr t => String.eqb s t
  | VList l, VList l' =>
      (fix go (l l' : list pyvalue) : bool :=
         match l, l' with
         | [], [] => true
         | x :: xs, y :: ys => py_eq x y && go xs ys
         | _, _ => false
         end) l l'
  | VSet l, VSet l' =>
      Nat.eqb (length l) (length l') && forallb (fun x => existsb (py_eq x) l') l
  | VDict d, VDict d' =>
      Nat.eqb (length d) (length d') &&
      (fix go (d : list (pyvalue * pyvalue)) : bool :=
         match d with
         | [] => true
         | (k, v) :: r => existsb (fun kv => py_eq k kv.1 && py_eq v kv.2) d' && go r
         end) d
  | _, _ =>
      match as_number a, as_number b with
      | Some x, Some y => number_eqb x y
      | _, _ => false
      end
  end.

Definition subset_of (l l' : list pyvalue) : bool :=
  forallb (fun x => existsb (py_eq x) l') l.

Definition set_cmp (op : cmp_op) (l l' : list pyvalue) : bool :=
  match op with
  | CmpLt => subset_of l l' && negb (subset_of l' l)
  | CmpLe => subset_of l l'
  | CmpGt => subset_of l' l && negb (subset_of l l')
  | CmpGe => subset_of l' l
  end.

(** [a < b], [a <= b], [a > b], [a >= b]; [TypeError] on operands that are
    not ordered with each other. *)
Fixpoint py_cmp (op : cmp_op) (a b : pyvalue) {struct a} : result bool :=
  match a, b with
  | VStr s, VStr t => Ok (string_cmp op s t)
  | VList l, VList l' =>
      (fix go (l l' : list pyvalue) : result bool :=
         match l, l' with
         | x :: xs, y :: ys => if py_eq x y then go xs ys else py_cmp op x y
         | _, _ => Ok (nat_cmp op (length l) (length l'))
         end) l l'
  | VSet l, VSet l' => Ok (set_cmp op l l')
  | _, _ =>
      match as_number a, as_number b with
      | Some x, Some y => Ok (number_cmp op x y)
      | _, _ => Raise TypeError
      end
  end.

Definition hashable (v : pyvalue) : bool :=
  match v with
  | VList _ | VSet _ | VDict _ => false
  | _ => true
  end.

(** [x in c] *)
Definition py_contains (x c : pyvalue) : result bool :=
  match c with
  | VStr s =>
      match x with
      | VStr t => Ok (py_in t s)
      | _ => Raise TypeError
      end
  | VList l => Ok (existsb (py_eq x) l)
  | VSet l => if hashable x then Ok (existsb (py_eq x) l) else Raise TypeError
  | VDict d => if hashable x then Ok (existsb (fun kv => py_eq x kv.1) d) else Raise TypeError
  | _ => Raise TypeError
  end.

Fixpoint chars (s : string) : list pyvalue :=
  match s with
  | EmptyString => []
  | String c s' => VStr (String c EmptyString) :: chars s'
  end.

(** The items [for item in v] goes through. *)
Definition py_iter (v : pyvalue) : result (list pyvalue) :=
  match v with
  | VStr s => Ok (chars s)
  | VList l => Ok l
  | VSet l => Ok l
  | VDict d => Ok (d.*1)
  | _ => Raise TypeError
  end.

Fixpoint dedup_values (l : list pyvalue) : list pyvalue :=
  match l with
  | [] => []
  | x :: r => if existsb (py_eq x) r then dedup_values r else x :: dedup_values r
  end.

(** [set(v)] *)
Definition py_set (v : pyvalue) : result (list pyvalue) :=
  l ← py_iter v;
  if forallb hashable l then Ok (dedup_values l) else Raise TypeError.

(** [all(item in container for item in items)]: stops at the first item
    that is not in the container. *)
Fixpoint all_in (container : pyvalue) (items : list pyvalue) : result bool :=
  match items with
  | [] => Ok true
  | item :: rest =>
      py_contains item container ≫= fun b : bool =>
      if b then all_in container rest else Ok false
  end.

(** *** Arithmetic *)

Inductive arith_op := Mul | Div | Add | Sub.

Definition number_arith (op : arith_op) (a b : number) : result pyvalue :=
  match op with
  | Div =>
      if bool_decide (number_R b = 0%R) then Raise ZeroDivisionError
      else Ok (VFloat (number_R a / number_R b))
  | _ =>
      match a, b with
      | NInt m, NInt n =>
          Ok (VInt match op with Mul => m * n | Add => m + n | _ => m - n end%Z)
      | _, _ =>
          let x := number_R a in
          let y := number_R b in
          Ok (VFloat match op with Mul => x * y | Add => x + y | _ => x - y end%R)
      end
  end.

Definition as_int (v : pyvalue) : option Z :=
  match v with
  | VBool b => Some (Z.b2z b)
  | VInt n => Some n
  | _ => None
  end.

Definition repeat_list (l : list pyvalue) (n : nat) : list pyvalue :=
  concat (replicate n l).

(** [a * b], [a / b], [a + b], [a - b] *)
Definition py_arith (op : arith_op) (a b : pyvalue) : result pyvalue :=
  match as_number a, as_number b with
  | Some x, Some y => number_arith op x y
  | _, _ =>
      match op, a, b with
      | Add, VStr s, VStr t => Ok (VStr (s +:+ t))
      | Add, VList l, VList l' => Ok (VList (l ++ l'))
      | Sub, VSet l, VSet l' =>
          Ok (VSet (List.filter (fun x => negb (existsb (py_eq x) l')) l))
      | Mul, VStr s, _ =>
          match as_int b with
          | Some n => Ok (VStr (repeat_string s (Z.to_nat n)))
          | None => Raise TypeError
          end
      | Mul, _, VStr s =>
          match as_int a with
          | Some n => Ok (VStr (repeat_string s (Z.to_nat n)))
          | None => Raise TypeError
          end
      | Mul, VList l, _ =>
          match as_int b with
          | Some n => Ok (VList (repeat_list l (Z.to_nat n)))
          | None => Raise TypeError
          end
      | Mul, _, VList l =>
          match as_int a with
          | Some n => Ok (VList (repeat_list l (Z.to_nat n)))
          | None => Raise TypeError
          end
      | _, _, _ => Raise TypeError
      end
  end.

(** ** qutypes.py: the data model *)

Module QPUProvider.
Inductive t := IBM | AZURE | AWS.

(** The members are strings ([class QPUProvider(str, Enum)]). *)
Definition name (p : t) : string :=
  match p with
  | IBM => "IBM" | AZURE => "AZURE" | AWS => "AWS"
  end.
End QPUProvider.

Module GateType.
Inductive t := X | Y | Z | H | CNOT | CZ | RZ | RX | RY | T | S.

(** The members are strings ([class GateType(str, Enum)]). *)
Definition name (g : t) : string :=
  match g with
  | X => "X" | Y => "Y" | Z => "Z" | H => "H" | CNOT => "CNOT" | CZ => "CZ"
  | RZ => "RZ" | RX => "RX" | RY => "RY" | T => "T" | S => "S"
  end.

Definition index (g : t) : positive :=
  match g with
  | X => 1 | Y => 2 | Z => 3 | H => 4 | CNOT => 5 | CZ => 6
  | RZ => 7 | RX => 8 | RY => 9 | T => 10 | S => 11
  end.

Definition of_index (n : positive) : option t :=
  match n with
  | 1 => Some X | 2 => Some Y | 3 => Some Z | 4 => Some H | 5 => Some CNOT
  | 6 => Some CZ | 7 => Some RZ | 8 => Some RX | 9 => Some RY | 10 => Some T
  | 11 => Some S | _ => None
  end%positive.
End GateType.

#[global] Instance GateType_eq_dec : EqDecision GateType.t.
Proof. solve_decision. Defined.

#[global] Instance GateType_countable : Countable GateType.t.
Proof.
  apply (inj_countable GateType.index GateType.of_index).
  intros []; reflexivity.
Defined.

#[global] Instance QPUProvider_eq_dec : EqDecision QPUProvider.t.
Proof. solve_decision. Defined.

Module QuantumCircuit.
Record t := {
  id : string;
  name : string;
  qubits_required : Z;             (* Field(gt=0) *)
  shots : Z;                       (* Field(gt=0) *)
  gate_counts : gmap GateType.t Z;
  depth : Z;                       (* Field(ge=0) *)
  qubits_used : gset Z;
  measurements : gmap Z Z
}.
End QuantumCircuit.

Module QPUResource.
Record t := {
  id : string;
  name : string;
  provider : QPUProvider.t;
  qubits : Z;                      (* Field(gt=0) *)
  native_gates : gset GateType.t;
  gate_fidelities : gmap GateType.t R;
  readout_fidelities : gmap Z R;
  max_depth : Z;                   (* Field(gt=0) *)
  max_shots : Z;                   (* Field(gt=0) *)
  workload : Z;                    (* Field(ge=0) *)
  available : bool;
  cost : QuantumCircuit.t -> R     (* the resource's own pricing function *)
}.
End QPUResource.

(** [math.isclose(a, b, rel_tol=rel_tol)] with the default [abs_tol=0.0]. *)
Definition isclose (a b rel_tol : R) : bool :=
  bool_decide (Rabs (a - b) <= Rmax (rel_tol * Rmax (Rabs a) (Rabs b)) 0)%R.

Module OptimizationWeights.
Record t := {
  cost_weight : R;
  error_weight : R;
  workload_weight : R
}.

(** [Field(ge=0, le=1)] *)
Definition field_ok (x : R) : bool :=
  bool_decide (0 <= x)%R && bool_decide (x <= 1)%R.

Definition model_post_init (self : t) : result unit :=
  let total := (cost_weight self + error_weight self + workload_weight self)%R in
  if negb (isclose total 1 (1 / 1000000))
  then Raise (ValueError "Weights must sum to 1.0")
  else Ok tt.

(** [OptimizationWeights(cost_weight=c, error_weight=e, workload_weight=w)]:
    field validation, then [model_post_init].  The error kept is the
    [ValueError] of the source, whatever the base class wraps it in; the
    number formatted into its message is left out. *)
Definition new (c e w : R) : result t :=
  if field_ok c && field_ok e && field_ok w then
    let self := {| cost_weight := c; error_weight := e; workload_weight := w |} in
    _ ← model_post_init self; Ok self
  else Raise ValidationError.
End OptimizationWeights.

Inductive ConstraintOperator :=
| EQ | NE | GT | GE | LT | LE | IN | NOT_IN | CONTAINS | SUBSET | SUPERSET.

Inductive ConstraintTarget := QPU | CIRCUIT | COMPUTED.

(** ** qubind.py: the figure-of-merit calculators *)

Record QuBindEngine := { qpus : list QPUResource.t }.

(** [x ** n] for a float [x] and an int [n].  (Python raises
    [ZeroDivisionError] for [0.0 ** n] with [n < 0]; occurrence counts are
    not negative, and the statements that depend on it say so.) *)
Definition float_pow (x : R) (n : Z) : R := powerRZ x n.

Definition _normalize_cost (cost : R) : R :=
  (1 / (1 + exp (- (1 / 100) * (cost - 100))))%R.

(** One [for key, count in counts.items()] loop of [_calculate_fidelity]:
    [if key in table: acc *= table[key] ** count]. *)
Definition fidelity_loop `{Countable K} (table : gmap K R) (counts : gmap K Z) : R :=
  foldl (fun acc kc =>
           match table !! kc.1 with
           | Some f => (acc * float_pow f kc.2)%R
           | None => acc
           end) 1%R (map_to_list counts).

Definition _calculate_fidelity (qpu : QPUResource.t) (circuit : QuantumCircuit.t) : R :=
  if decide (QuantumCircuit.gate_counts circuit = ∅) then 1%R
  else
    let gate_fidelity :=
      fidelity_loop (QPUResource.gate_fidelities qpu) (QuantumCircuit.gate_counts circuit) in
    let readout_fidelity :=
      fidelity_loop (QPUResource.readout_fidelities qpu) (QuantumCircuit.measurements circuit) in
    (gate_fidelity * readout_fidelity)%R.

Definition _normalize_workload (workload : Z) : R :=
  Rmin 1 (IZR workload / 100).

Definition _calculate_cost (qpu : QPUResource.t) (circuit : QuantumCircuit.t) : R :=
  QPUResource.cost qpu circuit.

Definition _calculate_figure_of_merit
    (qpu : QPUResource.t) (circuit : QuantumCircuit.t) (weights : OptimizationWeights.t) : R :=
  let cost := _normalize_cost (_calculate_cost qpu circuit) in
  let fidelity := _calculate_fidelity qpu circuit in
  let workload := _normalize_workload (QPUResource.workload qpu) in
  (OptimizationWeights.cost_weight weights * cost
   + OptimizationWeights.error_weight weights * (1 - fidelity)
   + OptimizationWeights.workload_weight weights * workload)%R.

(** ** constraint_utils.py: property resolver and expression evaluator *)

(** What [get_nested_property] walks over: a resource, a workload, or a
    value reached from one of them. *)
Inductive pyobj :=
| ObjQPU (qpu : QPUResource.t)
| ObjCircuit (circuit : QuantumCircuit.t)
| ObjValue (v : pyvalue).

Definition gate_set_value (s : gset GateType.t) : pyvalue :=
  VSet ((fun g => VStr (GateType.name g)) <$> elements s).

Definition qubit_set_value (s : gset Z) : pyvalue :=
  VSet (VInt <$> elements s).

Definition dict_value {K A} `{Countable K}
    (key : K -> pyvalue) (val : A -> pyvalue) (m : gmap K A) : pyvalue :=
  VDict ((fun kv => (key kv.1, val kv.2)) <$> map_to_list m).

(** [hasattr(obj, name)] / [getattr(obj, name)], on the declared data
    fields.  Attributes the interpreter and the model base class add
    (methods, dunder names) are outside the model. *)
Definition py_getattr (obj : pyobj) (name : string) : option pyvalue :=
  match obj with
  | ObjQPU q =>
      match name with
      | "id" => Some (VStr (QPUResource.id q))
      | "name" => Some (VStr (QPUResource.name q))
      | "provider" => Some (VStr (QPUProvider.name (QPUResource.provider q)))
      | "qubits" => Some (VInt (QPUResource.qubits q))
      | "native_gates" => Some (gate_set_value (QPUResource.native_gates q))
      | "gate_fidelities" =>
          Some (dict_value (fun g => VStr (GateType.name g)) VFloat (QPUResource.gate_fidelities q))
      | "readout_fidelities" =>
          Some (dict_value VInt VFloat (QPUResource.readout_fidelities q))
      | "max_depth" => Some (VInt (QPUResource.max_depth q))
      | "max_shots" => Some (VInt (QPUResource.max_shots q))
      | "workload" => Some (VInt (QPUResource.workload q))
      | "available" => Some (VBool (QPUResource.available q))
      | _ => None
      end
  | ObjCircuit c =>
      match name with
      | "id" => Some (VStr (QuantumCircuit.id c))
      | "name" => Some (VStr (QuantumCircuit.name c))
      | "qubits_required" => Some (VInt (QuantumCircuit.qubits_required c))
      | "shots" => Some (VInt (QuantumCircuit.shots c))
      | "gate_counts" =>
          Some (dict_value (fun g => VStr (GateType.name g)) VInt (QuantumCircuit.gate_counts c))
      | "depth" => Some (VInt (QuantumCircuit.depth c))
      | "qubits_used" => Some (qubit_set_value (QuantumCircuit.qubits_used c))
      | "measurements" => Some (dict_value VInt VInt (QuantumCircuit.measurements c))
      | _ => None
      end
  | ObjValue _ => None
  end.

(** [current[part]] when [isinstance(current, dict) and part in current]. *)
Definition dict_item (current : pyobj) (part : string) : option pyvalue :=
  match current with
  | ObjValue (VDict d) =>
      snd <$> List.find (fun kv => py_eq (VStr part) kv.1) d
  | _ => None
  end.

Definition not_found (property_path : string) : exn :=
  ValueError ("Property " +:+ property_path +:+ " not found in object").

(** The [for part in parts] loop. *)
Fixpoint walk (property_path : string) (current : pyobj) (parts : list string) : result pyobj :=
  match parts with
  | [] => Ok current
  | part :: rest =>
      match py_getattr current part with
      | Some v => walk property_path (ObjValue v) rest
      | None =>
          match dict_item current part with
          | Some v => walk property_path (ObjValue v) rest
          | None => Raise (not_found property_path)
          end
      end
  end.

(** The walk ends on a value: [split] never returns an empty list, and
    every step yields a value.  The last branch is never taken. *)
Definition get_nested_property (obj : pyobj) (property_path : string) : result pyvalue :=
  if py_in "." property_path then
    walk property_path obj (py_split property_path ".") ≫= fun current =>
    match current with
    | ObjValue v => Ok v
    | _ => Raise (not_found property_path)
    end
  else
    match py_getattr obj property_path with
    | Some v => Ok v
    | None => Raise (not_found property_path)
    end.

(** [s[n:]] *)
Fixpoint slice_from (n : nat) (s : string) : string :=
  match n, s with
  | S k, String _ s' => slice_from k s'
  | _, _ => s
  end.

Definition token (op : arith_op) : string :=
  match op with
  | Mul => " * "
  | Div => " / "
  | Add => " + "
  | Sub => " - "
  end.

(** The computed properties, shared by the evaluator and by
    [Constraint.evaluate]. *)
Definition computed_property (prop_name : string)
    (qpu : QPUResource.t) (circuit : QuantumCircuit.t) : result pyvalue :=
  match prop_name with
  | "fidelity" => Ok (VFloat (_calculate_fidelity qpu circuit))
  | "cost" => Ok (VFloat (QPUResource.cost qpu circuit))
  | "normalized_cost" => Ok (VFloat (_normalize_cost (QPUResource.cost qpu circuit)))
  | "normalized_workload" => Ok (VFloat (_normalize_workload (QPUResource.workload qpu)))
  | "circuit_depth" => Ok (VInt (QuantumCircuit.depth circuit))
  | _ => Raise (ValueError ("Computed property " +:+ prop_name +:+ " not supported"))
  end.

Section evaluate_expression.
Context (qpu : option QPUResource.t) (circuit : option QuantumCircuit.t)
        (engine : option QuBindEngine).

(** One [if " op " in expression:] block; [otherwise] is the code after
    the block, reached when the token is absent or the split does not
    give two parts. *)
Definition binary_block (rec : string -> result pyvalue) (op : arith_op)
    (expression : string) (otherwise : result pyvalue) : result pyvalue :=
  if py_in (token op) expression then
    match py_split expression (token op) with
    | [part0; part1] =>
        rec (py_strip part0) ≫= fun left =>
        try_except_ValueError
          (py_float (py_strip part1) ≫= fun right => py_arith op left (VFloat right))
          (rec (py_strip part1) ≫= fun right => py_arith op left right)
    | _ => otherwise
    end
  else otherwise.

(** The final [try: int(...) except: try: float(...) except: expression]. *)
Definition literal (expression : string) : result pyvalue :=
  try_except_ValueError (VInt <$> py_int expression)
    (try_except_ValueError (VFloat <$> py_float expression)
       (Ok (VStr expression))).

(** The four operator blocks, in the order of the source, then the
    literal. *)
Definition arithmetic (rec : string -> result pyvalue) (expression : string) : result pyvalue :=
  binary_block rec Mul expression
    (binary_block rec Div expression
       (binary_block rec Add expression
          (binary_block rec Sub expression
             (literal expression)))).

(** The body of [evaluate_expression]; [rec] stands for the recursive
    calls. *)
Definition evaluate_body (rec : string -> result pyvalue) (expression : string) : result pyvalue :=
  match startswith expression "qpu.", qpu with
  | true, Some q => get_nested_property (ObjQPU q) (slice_from 4 expression)
  | _, _ =>
      match startswith expression "circuit.", circuit with
      | true, Some c => get_nested_property (ObjCircuit c) (slice_from 8 expression)
      | _, _ =>
          match startswith expression "computed.", engine, qpu, circuit with
          | true, Some _, Some q, Some c => computed_property (slice_from 9 expression) q c
          | _, _, _, _ => arithmetic rec expression
          end
      end
  end.

(** Every recursive call is on a strictly shorter string, so a fuel of
    one more than the length of the expression is never used up. *)
Fixpoint evaluate_fuel (fuel : nat) (expression : string) : result pyvalue :=
  match fuel with
  | O => Raise RecursionError
  | S fuel' => evaluate_body (evaluate_fuel fuel') expression
  end.
End evaluate_expression.

Definition evaluate_expression (expression : string)
    (qpu : option QPUResource.t) (circuit : option QuantumCircuit.t)
    (engine : option QuBindEngine) : result pyvalue :=
  evaluate_fuel qpu circuit engine (Datatypes.S (String.length expression)) expression.

(** ** qutypes.py: constraints *)

(** [isinstance(v, str) and any(x in v for x in ["qpu.", "circuit.", "computed."])] *)
Definition is_expression (v : pyvalue) : bool :=
  match v with
  | VStr s => py_in "qpu." s || py_in "circuit." s || py_in "computed." s
  | _ => false
  end.

(** The operator dispatch at the end of [Constraint.evaluate]. *)
Definition apply_operator (op : ConstraintOperator)
    (property_value comparison_value : pyvalue) : result bool :=
  match op with
  | EQ => Ok (py_eq property_value comparison_value)
  | NE => Ok (negb (py_eq property_value comparison_value))
  | GT => py_cmp CmpGt property_value comparison_value
  | GE => py_cmp CmpGe property_value comparison_value
  | LT => py_cmp CmpLt property_value comparison_value
  | LE => py_cmp CmpLe property_value comparison_value
  | IN => py_contains property_value comparison_value
  | NOT_IN => negb <$> py_contains property_value comparison_value
  | CONTAINS => py_iter comparison_value ≫= all_in property_value
  | SUBSET =>
      py_set property_value ≫= fun a =>
      py_set comparison_value ≫= fun b => Ok (subset_of a b)
  | SUPERSET =>
      py_set property_value ≫= fun a =>
      py_set comparison_value ≫= fun b => Ok (subset_of b a)
  end.

Module Constraint.
Record t := {
  name : string;
  description : string;
  target : ConstraintTarget;
  property : string;
  operator : ConstraintOperator;
  value : pyvalue;
  custom_fn : option (QPUResource.t -> QuantumCircuit.t -> result bool);
  parameters : gmap string pyvalue
}.

(** The property value by target: the first [if]/[elif] chain of
    [evaluate]. *)
Definition property_value (self : t)
    (qpu : QPUResource.t) (circuit : QuantumCircuit.t)
    (engine : option QuBindEngine) : result pyvalue :=
  match target self with
  | QPU => get_nested_property (ObjQPU qpu) (property self)
  | CIRCUIT => get_nested_property (ObjCircuit circuit) (property self)
  | COMPUTED =>
      match engine with
      | None => Raise (ValueError "Engine required for computed properties")
      | Some _ => computed_property (property self) qpu circuit
      end
  end.

(** The comparison value: an expression string is evaluated, anything
    else is used as it is. *)
Definition comparison_value (self : t)
    (qpu : QPUResource.t) (circuit : QuantumCircuit.t)
    (engine : option QuBindEngine) : result pyvalue :=
  match value self with
  | VStr s =>
      if is_expression (VStr s)
      then evaluate_expression s (Some qpu) (Some circuit) engine
      else Ok (VStr s)
  | v => Ok v
  end.

(** [Constraint.evaluate(self, qpu, circuit, engine)] *)
Definition evaluate (self : t)
    (qpu : QPUResource.t) (circuit : QuantumCircuit.t)
    (engine : option QuBindEngine) : result bool :=
  match custom_fn self with
  | Some fn => fn qpu circuit
  | None =>
      property_value self qpu circuit engine ≫= fun pv =>
      comparison_value self qpu circuit engine ≫= fun cv =>
      apply_operator (operator self) pv cv
  end.
End Constraint.

(** ** qubind.py: the two phases *)

(** The [for constraint in constraints] loop of [_is_feasible]: a
    constraint that is false or raises ends it with [False]. *)
Fixpoint constraints_loop (self : QuBindEngine)
    (qpu : QPUResource.t) (circuit : QuantumCircuit.t)
    (constraints : list Constraint.t) : bool :=
  match constraints with
  | [] => true
  | constraint :: rest =>
      match try_except_Exception
              (Constraint.evaluate constraint qpu circuit (Some self) ≫= fun b : bool =>
               if negb b then Ok (Some false) else Ok None)
              (fun e => Ok (Some false))
      with
      | Ok None => constraints_loop self qpu circuit rest
      | Ok (Some returned) => returned
      | Raise _ => false
      end
  end.

Definition _is_feasible (self : QuBindEngine)
    (qpu : QPUResource.t) (circuit : QuantumCircuit.t)
    (constraints : list Constraint.t) : bool :=
  if negb (QPUResource.available qpu) then false
  else if (QPUResource.qubits qpu <? QuantumCircuit.qubits_required circuit)%Z then false
  else constraints_loop self qpu circuit constraints.

(** Phase 1: [feasible_qpus.append(qpu)] for each feasible [qpu] of the pool. *)
Definition matching_phase (self : QuBindEngine)
    (circuit : QuantumCircuit.t) (constraints : list Constraint.t) : list QPUResource.t :=
  foldl (fun feasible_qpus qpu =>
           if _is_feasible self qpu circuit constraints
           then feasible_qpus ++ [qpu]
           else feasible_qpus) [] (qpus self).

(** [best_fom]: [float("inf")] until a score is recorded. *)
Inductive best_bound :=
| Infinity
| Score (x : R).

Definition below (fom : R) (best_fom : best_bound) : bool :=
  match best_fom with
  | Infinity => true
  | Score x => bool_decide (fom < x)%R
  end.

(** Phase 2.  The result is [best_qpu], which starts as [None]. *)
Definition optimization_phase (self : QuBindEngine)
    (feasible_qpus : list QPUResource.t) (circuit : QuantumCircuit.t)
    (weights : OptimizationWeights.t) : result (option QPUResource.t) :=
  match feasible_qpus with
  | [] => Raise (ValueError "No feasible QPUs found")
  | _ =>
      Ok (foldl (fun best qpu =>
                   let fom := _calculate_figure_of_merit qpu circuit weights in
                   if below fom best.2 then (Some qpu, Score fom) else best)
                (None, Infinity) feasible_qpus).1
  end.

(** ** api.py: selection and ranking *)

Record RankedQPU := {
  qpu_id : string;
  qpu_name : string;
  provider : QPUProvider.t;
  figure_of_merit : R
}.

Record BindingResult := {
  selected_qpu : QPUResource.t;
  result_figure_of_merit : R;
  ranked_qpus : option (list RankedQPU)
}.

(** [list.sort(key=key)]: a stable sort that compares keys with [<].  A
    stable sort has one possible result, which insertion from the right
    computes. *)
Fixpoint sort_insert {A} (key : A -> R) (x : A) (sorted : list A) : list A :=
  match sorted with
  | [] => [x]
  | y :: ys =>
      if bool_decide (key y < key x)%R then y :: sort_insert key x ys
      else x :: sorted
  end.

Definition py_sort {A} (key : A -> R) (l : list A) : list A :=
  foldr (sort_insert key) [] l.

Definition ranked_entry (qpu : QPUResource.t) (fom : R) : RankedQPU :=
  {| qpu_id := QPUResource.id qpu;
     qpu_name := QPUResource.name qpu;
     provider := QPUResource.provider qpu;
     figure_of_merit := fom |}.

(** The [if request.ranking:] block after the optimization phase. *)
Definition rank_qpus (feasible_qpus : list QPUResource.t)
    (circuit : QuantumCircuit.t) (weights : OptimizationWeights.t) : list RankedQPU :=
  let ranked_qpus :=
    foldl (fun ranked_qpus qpu =>
             let qpu_fom := _calculate_figure_of_merit qpu circuit weights in
             ranked_qpus ++ [ranked_entry qpu qpu_fom]) [] feasible_qpus in
  py_sort figure_of_merit ranked_qpus.

(** [request.figures_of_merit.get(key, default)] *)
Definition get_default (d : gmap string R) (key : string) (default : R) : R :=
  match d !! key with
  | Some x => x
  | None => default
  end.

(** [bind_qpus] from the construction of the weights on, inside its [try]:
    the workload is compiled and the constraints are built. *)
Definition bind_body (qubind : QuBindEngine)
    (circuit : QuantumCircuit.t) (constraints : list Constraint.t)
    (request_figures_of_merit : gmap string R) (request_ranking : bool)
    : result BindingResult :=
  OptimizationWeights.new
    (get_default request_figures_of_merit "cost_weight" (33 / 100))
    (get_default request_figures_of_merit "error_weight" (33 / 100))
    (get_default request_figures_of_merit "workload_weight" (34 / 100))
  ≫= fun figures_of_merit =>
  let feasible_qpus := matching_phase qubind circuit constraints in
  match feasible_qpus with
  | [] => Raise (HTTPException 404)
  | first :: _ =>
      if decide (request_figures_of_merit = ∅) then
        if request_ranking then
          Ok {| selected_qpu := first; result_figure_of_merit := 0;
                ranked_qpus :=
                  Some (foldl (fun ranked_qpus qpu => ranked_qpus ++ [ranked_entry qpu 0])
                          [] feasible_qpus) |}
        else
          Ok {| selected_qpu := first; result_figure_of_merit := 0; ranked_qpus := None |}
      else
        optimization_phase qubind feasible_qpus circuit figures_of_merit ≫= fun best =>
        match best with
        | None => Raise ValidationError
        | Some optimal_qpu =>
            let fom := _calculate_figure_of_merit optimal_qpu circuit figures_of_merit in
            if request_ranking then
              Ok {| selected_qpu := optimal_qpu; result_figure_of_merit := fom;
                    ranked_qpus := Some (rank_qpus feasible_qpus circuit figures_of_merit) |}
            else
              Ok {| selected_qpu := optimal_qpu; result_figure_of_merit := fom;
                    ranked_qpus := None |}
        end
  end.

(** [except Exception as e: raise HTTPException(status_code=400, ...)] *)
Definition bind_qpus (qubind : QuBindEngine)
    (circuit : QuantumCircuit.t) (constraints : list Constraint.t)
    (request_figures_of_merit : gmap string R) (request_ranking : bool)
    : result BindingResult :=
  try_except_Exception
    (bind_body qubind circuit constraints request_figures_of_merit request_ranking)
    (fun _ => Raise (HTTPException 400)).

(** ** Statements of the specification *)

#[global] Instance exn_eq_dec : EqDecision exn.
Proof. solve_decision. Defined.

#[global] Instance result_eq_dec `{EqDecision A} : EqDecision (result A).
Proof. solve_decision. Defined.

(** Matching: a resource is eligible when it is available, has enough
    qubits, and every constraint evaluates to [True] without raising. *)
Definition eligible (self : QuBindEngine) (circuit : QuantumCircuit.t)
    (constraints : list Constraint.t) (qpu : QPUResource.t) : Prop :=
  QPUResource.available qpu = true /\
  (QuantumCircuit.qubits_required circuit <= QPUResource.qubits qpu)%Z /\
  Forall (fun constraint => Constraint.evaluate constraint qpu circuit (Some self) = Ok true) constraints.

#[global] Instance eligible_dec self circuit constraints qpu :
  Decision (eligible self circuit constraints qpu).
Proof. unfold eligible. apply _. Defined.

(** The score the optimization phase and the ranking compare. *)
Definition score (circuit : QuantumCircuit.t) (weights : OptimizationWeights.t)
    (qpu : QPUResource.t) : R :=
  _calculate_figure_of_merit qpu circuit weights.

(** The product of the values of a mapping. *)
Definition product_of `{Countable K} (m : gmap K R) : R :=
  map_fold (fun _ x acc => (x * acc)%R) 1%R m.

(** Fidelity in the words of the specification: the product, over the
    kinds present in both mappings, of [gate_fidelity[kind] ^ count], times
    the same product over the measured qubits and the readout table. *)
Definition fidelity_product (qpu : QPUResource.t) (circuit : QuantumCircuit.t) : R :=
  (product_of (map_zip_with float_pow (QPUResource.gate_fidelities qpu)
                 (QuantumCircuit.gate_counts circuit))
   * product_of (map_zip_with float_pow (QPUResource.readout_fidelities qpu)
                   (QuantumCircuit.measurements circuit)))%R.




(** "Equals 1.0 within tolerance 1e-6", read as an absolute tolerance. *)
Definition within_tolerance (total : R) : Prop :=
  (Rabs (total - 1) <= 1 / 1000000)%R.

(** ** Statements about the loops *)

(** The factor one item of the counts contributes to a fidelity loop. *)
Definition count_factor `{Countable K} (table : gmap K R) (kc : K * Z) : R :=
  match table !! kc.1 with
  | Some f => float_pow f kc.2
  | None => 1%R
  end.

Definition Rprod (l : list R) : R := foldr Rmult 1%R l.

(** The characters in the parts of a split. *)
Definition total_length (parts : list string) : nat :=
  foldr (fun p n => String.length p + n) 0 parts.

(** ** Statements about the expression evaluator *)

Fixpoint has_char (c : ascii) (s : string) : bool :=
  match s with
  | EmptyString => false
  | String a s' => Ascii.eqb a c || has_char c s'
  end.

(** Truthiness of an optional object: [None] is false. *)
Definition present {A} (o : option A) : bool :=
  match o with
  | Some _ => true
  | None => false
  end.

(** The expression is answered by one of the three property branches. *)
Definition property_branch (expression : string)
    (qpu : option QPUResource.t) (circuit : option QuantumCircuit.t)
    (engine : option QuBindEngine) : bool :=
  (startswith expression "qpu." && present qpu)
  || (startswith expression "circuit." && present circuit)
  || (startswith expression "computed." && present engine && present qpu && present circuit).

(** "Evaluating [left_text] and [right_text] as the two sub-expressions
    and combining them with [op]": the left text is evaluated, the right
    text is read as a float literal or else evaluated, and the operator
    is applied. *)
Definition combine (op : arith_op) (left_text right_text : string)
    (qpu : option QPUResource.t) (circuit : option QuantumCircuit.t)
    (engine : option QuBindEngine) : result pyvalue :=
  evaluate_expression (py_strip left_text) qpu circuit engine ≫= fun left =>
  try_except_ValueError
    (py_float (py_strip right_text) ≫= fun right => py_arith op left (VFloat right))
    (evaluate_expression (py_strip right_text) qpu circuit engine ≫= fun right =>
     py_arith op left right).

(** The operator blocks for the operators of [ops], in order, then the
    literal. *)
Definition blocks (ops : list arith_op) (rec : string -> result pyvalue)
    (expression : string) : result pyvalue :=
  foldr (fun op otherwise => binary_block rec op expression otherwise)
        (literal expression) ops.

#[global] Instance arith_op_eq_dec : EqDecision arith_op.
Proof. solve_decision. Defined.

(** The four operators in the order the evaluator tries them. *)
Definition operator_order : list arith_op := [Mul; Div; Add; Sub].

(** ** Example inputs *)

(** A workload without gates that measures qubit 0 once, and a resource
    whose readout fidelity on qubit 0 is one half. *)
Definition measure_only_circuit : QuantumCircuit.t :=
  {| QuantumCircuit.id := "c0"; QuantumCircuit.name := "measure only";
     QuantumCircuit.qubits_required := 1; QuantumCircuit.shots := 1000;
     QuantumCircuit.gate_counts := ∅; QuantumCircuit.depth := 1;
     QuantumCircuit.qubits_used := {[ 0%Z ]};
     QuantumCircuit.measurements := {[ 0%Z := 1%Z ]} |}.

Definition noisy_readout_qpu : QPUResource.t :=
  {| QPUResource.id := "q0"; QPUResource.name := "noisy readout";
     QPUResource.provider := QPUProvider.IBM; QPUResource.qubits := 5;
     QPUResource.native_gates := ∅; QPUResource.gate_fidelities := ∅;
     QPUResource.readout_fidelities := {[ 0%Z := (1 / 2)%R ]};
     QPUResource.max_depth := 1000; QPUResource.max_shots := 10000;
     QPUResource.workload := 0; QPUResource.available := true;
     QPUResource.cost := fun _ => 0%R |}.

(** A resource that is free and idle, and the weights that put everything
    on the error term. *)
Definition idle_qpu : QPUResource.t :=
  {| QPUResource.id := "q1"; QPUResource.name := "idle";
     QPUResource.provider := QPUProvider.AWS; QPUResource.qubits := 5;
     QPUResource.native_gates := ∅; QPUResource.gate_fidelities := ∅;
     QPUResource.readout_fidelities := ∅;
     QPUResource.max_depth := 1000; QPUResource.max_shots := 10000;
     QPUResource.workload := 0; QPUResource.available := true;
     QPUResource.cost := fun _ => 0%R |}.


Definition default_weights : OptimizationWeights.t :=
  {| OptimizationWeights.cost_weight := 33 / 100;
     OptimizationWeights.error_weight := 33 / 100;
     OptimizationWeights.workload_weight := 34 / 100 |}.

(** Three weights whose sum exceeds 1 by a little more than 1e-6. *)
Definition slightly_heavy : R * R * R :=
  (1 / 2, 1 / 2, 10000005 / 10000000000000)%R.

(** A resource with a long queue, and the weights that put everything on
    the queue term. *)
Definition busy_qpu : QPUResource.t :=
  {| QPUResource.id := "q2"; QPUResource.name := "busy";
     QPUResource.provider := QPUProvider.AZURE; QPUResource.qubits := 5;
     QPUResource.native_gates := ∅; QPUResource.gate_fidelities := ∅;
     QPUResource.readout_fidelities := ∅;
     QPUResource.max_depth := 1000; QPUResource.max_shots := 10000;
     QPUResource.workload := 100; QPUResource.available := true;
     QPUResource.cost := fun _ => 0%R |}.


Definition example_engine : QuBindEngine :=
  {| qpus := [noisy_readout_qpu; idle_qpu] |}.

(** ** Statements about matching *)

(** Availability and capacity: the two checks [_is_feasible] makes before
    it looks at any constraint. *)
Definition operational (circuit : QuantumCircuit.t) (qpu : QPUResource.t) : Prop :=
  QPUResource.available qpu = true /\
  (QuantumCircuit.qubits_required circuit <= QPUResource.qubits qpu)%Z.

#[global] Instance operational_dec circuit qpu : Decision (operational circuit qpu).
Proof. unfold operational. apply _. Defined.

(** Operational and of a fidelity of at least [x] on the workload. *)
Definition faithful_enough (circuit : QuantumCircuit.t) (x : R) (qpu : QPUResource.t) : Prop :=
  operational circuit qpu /\ (x <= _calculate_fidelity qpu circuit)%R.

#[global] Instance faithful_enough_dec circuit x qpu : Decision (faithful_enough circuit x qpu).
Proof. unfold faithful_enough. apply _. Defined.

(** Constraints as [create_constraint] builds them: no custom predicate,
    no parameters. *)
Definition plain_constraint (target : ConstraintTarget) (property : string)
    (operator : ConstraintOperator) (value : pyvalue) : Constraint.t :=
  {| Constraint.name := property; Constraint.description := "";
     Constraint.target := target; Constraint.property := property;
     Constraint.operator := operator; Constraint.value := value;
     Constraint.custom_fn := None; Constraint.parameters := ∅ |}.

(** ** Statements about the property resolver *)

(** The declared fields of a resource and of a workload, by name. *)
Definition qpu_fields (q : QPUResource.t) : list (string * pyvalue) :=
  [ ("id", VStr (QPUResource.id q));
    ("name", VStr (QPUResource.name q));
    ("provider", VStr (QPUProvider.name (QPUResource.provider q)));
    ("qubits", VInt (QPUResource.qubits q));
    ("native_gates", gate_set_value (QPUResource.native_gates q));
    ("gate_fidelities",
     dict_value (fun g => VStr (GateType.name g)) VFloat (QPUResource.gate_fidelities q));
    ("readout_fidelities", dict_value VInt VFloat (QPUResource.readout_fidelities q));
    ("max_depth", VInt (QPUResource.max_depth q));
    ("max_shots", VInt (QPUResource.max_shots q));
    ("workload", VInt (QPUResource.workload q));
    ("available", VBool (QPUResource.available q)) ].

Definition circuit_fields (c : QuantumCircuit.t) : list (string * pyvalue) :=
  [ ("id", VStr (QuantumCircuit.id c));
    ("name", VStr (QuantumCircuit.name c));
    ("qubits_required", VInt (QuantumCircuit.qubits_required c));
    ("shots", VInt (QuantumCircuit.shots c));
    ("gate_counts",
     dict_value (fun g => VStr (GateType.name g)) VInt (QuantumCircuit.gate_counts c));
    ("depth", VInt (QuantumCircuit.depth c));
    ("qubits_used", qubit_set_value (QuantumCircuit.qubits_used c));
    ("measurements", dict_value VInt VInt (QuantumCircuit.measurements c)) ].

Definition fields (obj : pyobj) : list (string * pyvalue) :=
  match obj with
  | ObjQPU q => qpu_fields q
  | ObjCircuit c => circuit_fields c
  | ObjValue _ => []
  end.

Definition key_without_space (k : pyvalue) : Prop :=
  match k with
  | VStr s => has_char " " s = false
  | _ => True
  end.

Definition not_a_dict (v : pyvalue) : Prop :=
  match v with
  | VDict _ => False
  | _ => True
  end.

(** A value whose keys, if it is a mapping, have no space in them and
    whose items are not mappings themselves: what the fields hold. *)
Definition plain_value (v : pyvalue) : Prop :=
  match v with
  | VDict d => Forall (fun kv => key_without_space kv.1 /\ not_a_dict kv.2) d
  | _ => True
  end.

Definition plain_object (obj : pyobj) : Prop :=
  match obj with
  | ObjValue v => plain_value v
  | _ => True
  end.

(** A string of decimal digits. *)
Fixpoint all_digits (s : string) : bool :=
  match s with
  | EmptyString => true
  | String c s' => match digit_of c with Some _ => all_digits s' | None => false end
  end.

(** ** qutypes.py and qubind.py: building constraints *)

Definition ConstraintTarget_value (t : ConstraintTarget) : string :=
  match t with
  | QPU => "qpu"
  | CIRCUIT => "circuit"
  | COMPUTED => "computed"
  end.

Definition ConstraintOperator_value (o : ConstraintOperator) : string :=
  match o with
  | EQ => "eq" | NE => "ne" | GT => "gt" | GE => "ge" | LT => "lt" | LE => "le"
  | IN => "in" | NOT_IN => "not_in" | CONTAINS => "contains"
  | SUBSET => "subset" | SUPERSET => "superset"
  end.

Definition ConstraintTarget_members : list ConstraintTarget := [QPU; CIRCUIT; COMPUTED].

Definition ConstraintOperator_members : list ConstraintOperator :=
  [EQ; NE; GT; GE; LT; LE; IN; NOT_IN; CONTAINS; SUBSET; SUPERSET].

(** [Enum(value)]: the member with that value, [ValueError] when there is
    none. *)
Definition enum_call {E} (members : list E) (value_of : E -> string) (enum_name : string)
    (value : string) : result E :=
  match List.find (fun member => String.eqb (value_of member) value) members with
  | Some member => Ok member
  | None => Raise (ValueError ("'" +:+ value +:+ "' is not a valid " +:+ enum_name))
  end.

(** [QuBindEngine.create_constraint]: the target is converted first, then
    the operator; [parameters or {}]. *)
Definition create_constraint (name description target property operator : string)
    (value : pyvalue) (parameters : option (gmap string pyvalue)) : result Constraint.t :=
  enum_call ConstraintTarget_members ConstraintTarget_value "ConstraintTarget" target
  ≫= fun target' =>
  enum_call ConstraintOperator_members ConstraintOperator_value "ConstraintOperator" operator
  ≫= fun operator' =>
  Ok {| Constraint.name := name; Constraint.description := description;
        Constraint.target := target'; Constraint.property := property;
        Constraint.operator := operator'; Constraint.value := value;
        Constraint.custom_fn := None;
        Constraint.parameters := default ∅ parameters |}.

(** The operators whose blocks come before the block of [op]. *)
Definition tried_before (op : arith_op) : list arith_op :=
  match op with
  | Mul => []
  | Div => [Mul]
  | Add => [Mul; Div]
  | Sub => [Mul; Div; Add]
  end.

(** ** mock.py: the pool of the service *)

(** [sum(circuit.gate_counts.values())] *)
Definition sum_values (counts : gmap GateType.t Z) : Z :=
  foldl Z.add 0%Z ((map_to_list counts).*2).

(** [{i: f for i in range(n)}] *)
Definition uniform_readout (n : Z) (f : R) : gmap Z R :=
  list_to_map ((fun i => (i, f)) <$> seqZ 0 n).

(** [lambda circuit: rate * circuit.shots * sum(circuit.gate_counts.values()) / 100] *)
Definition gate_pricing (rate : R) (circuit : QuantumCircuit.t) : R :=
  (rate * IZR (QuantumCircuit.shots circuit)
   * IZR (sum_values (QuantumCircuit.gate_counts circuit)) / 100)%R.

(** [lambda circuit: 1.5 * circuit.shots * len(circuit.qubits_used) / 10] *)
Definition qubit_pricing (circuit : QuantumCircuit.t) : R :=
  (15 / 10 * IZR (QuantumCircuit.shots circuit)
   * IZR (Z.of_nat (size (QuantumCircuit.qubits_used circuit))) / 10)%R.

Definition create_premium_qpu : QPUResource.t :=
  {| QPUResource.id := "premium-01"; QPUResource.name := "Premium Quantum";
     QPUResource.provider := QPUProvider.IBM; QPUResource.qubits := 27;
     QPUResource.native_gates :=
       list_to_set [GateType.X; GateType.Y; GateType.Z; GateType.H; GateType.CNOT;
                    GateType.CZ; GateType.RZ; GateType.RX; GateType.RY];
     QPUResource.gate_fidelities :=
       list_to_map [(GateType.X, 9995 / 10000); (GateType.Y, 9995 / 10000);
                    (GateType.Z, 9997 / 10000); (GateType.H, 9990 / 10000);
                    (GateType.CNOT, 995 / 1000); (GateType.CZ, 994 / 1000);
                    (GateType.RZ, 9993 / 10000); (GateType.RX, 9992 / 10000);
                    (GateType.RY, 9991 / 10000)]%R;
     QPUResource.readout_fidelities := uniform_readout 27 (99 / 100);
     QPUResource.max_depth := 2000; QPUResource.max_shots := 20000;
     QPUResource.workload := 15; QPUResource.available := true;
     QPUResource.cost := gate_pricing 2 |}.

Definition create_standard_qpu : QPUResource.t :=
  {| QPUResource.id := "standard-01"; QPUResource.name := "Standard Quantum";
     QPUResource.provider := QPUProvider.AZURE; QPUResource.qubits := 20;
     QPUResource.native_gates :=
       list_to_set [GateType.X; GateType.Y; GateType.Z; GateType.H; GateType.CNOT;
                    GateType.CZ; GateType.RZ];
     QPUResource.gate_fidelities :=
       list_to_map [(GateType.X, 9980 / 10000); (GateType.Y, 9975 / 10000);
                    (GateType.Z, 9985 / 10000); (GateType.H, 9970 / 10000);
                    (GateType.CNOT, 988 / 1000); (GateType.CZ, 987 / 1000);
                    (GateType.RZ, 9975 / 10000)]%R;
     QPUResource.readout_fidelities := uniform_readout 20 (985 / 1000);
     QPUResource.max_depth := 1000; QPUResource.max_shots := 10000;
     QPUResource.workload := 10; QPUResource.available := true;
     QPUResource.cost := gate_pricing 1 |}.

Definition create_budget_qpu : QPUResource.t :=
  {| QPUResource.id := "budget-01"; QPUResource.name := "Budget Quantum";
     QPUResource.provider := QPUProvider.AWS; QPUResource.qubits := 12;
     QPUResource.native_gates :=
       list_to_set [GateType.X; GateType.Z; GateType.H; GateType.CNOT; GateType.RZ];
     QPUResource.gate_fidelities :=
       list_to_map [(GateType.X, 985 / 1000); (GateType.Z, 987 / 1000);
                    (GateType.H, 982 / 1000); (GateType.CNOT, 975 / 1000);
                    (GateType.RZ, 984 / 1000)]%R;
     QPUResource.readout_fidelities := uniform_readout 12 (96 / 100);
     QPUResource.max_depth := 500; QPUResource.max_shots := 5000;
     QPUResource.workload := 75; QPUResource.available := true;
     QPUResource.cost := gate_pricing (5 / 10) |}.

Definition create_capacity_qpu : QPUResource.t :=
  {| QPUResource.id := "capacity-01"; QPUResource.name := "Capacity Quantum";
     QPUResource.provider := QPUProvider.IBM; QPUResource.qubits := 127;
     QPUResource.native_gates :=
       list_to_set [GateType.X; GateType.Z; GateType.H; GateType.CNOT; GateType.RZ];
     QPUResource.gate_fidelities :=
       list_to_map [(GateType.X, 990 / 1000); (GateType.Z, 992 / 1000);
                    (GateType.H, 988 / 1000); (GateType.CNOT, 980 / 1000);
                    (GateType.RZ, 989 / 1000)]%R;
     QPUResource.readout_fidelities := uniform_readout 127 (975 / 1000);
     QPUResource.max_depth := 800; QPUResource.max_shots := 8000;
     QPUResource.workload := 50; QPUResource.available := true;
     QPUResource.cost := qubit_pricing |}.

Definition create_available_qpu : QPUResource.t :=
  {| QPUResource.id := "available-01"; QPUResource.name := "Available Quantum";
     QPUResource.provider := QPUProvider.AWS; QPUResource.qubits := 127;
     QPUResource.native_gates :=
       list_to_set [GateType.X; GateType.Z; GateType.H; GateType.CNOT; GateType.RZ];
     QPUResource.gate_fidelities :=
       list_to_map [(GateType.X, 990 / 1000); (GateType.Z, 992 / 1000);
                    (GateType.H, 988 / 1000); (GateType.CNOT, 980 / 1000);
                    (GateType.RZ, 989 / 1000)]%R;
     QPUResource.readout_fidelities := uniform_readout 127 (975 / 1000);
     QPUResource.max_depth := 600; QPUResource.max_shots := 15000;
     QPUResource.workload := 5; QPUResource.available := true;
     QPUResource.cost := qubit_pricing |}.

Definition create_inactive_qpu : QPUResource.t :=
  {| QPUResource.id := "inactive-01"; QPUResource.name := "Inactive Quantum";
     QPUResource.provider := QPUProvider.AWS; QPUResource.qubits := 20;
     QPUResource.native_gates :=
       list_to_set [GateType.X; GateType.Y; GateType.Z; GateType.H; GateType.CNOT;
                    GateType.RZ];
     QPUResource.gate_fidelities :=
       list_to_map [(GateType.X, 990 / 1000); (GateType.Y, 989 / 1000);
                    (GateType.Z, 991 / 1000); (GateType.H, 987 / 1000);
                    (GateType.CNOT, 981 / 1000); (GateType.RZ, 988 / 1000)]%R;
     QPUResource.readout_fidelities := uniform_readout 20 (975 / 1000);
     QPUResource.max_depth := 1200; QPUResource.max_shots := 10000;
     QPUResource.workload := 0; QPUResource.available := false;
     QPUResource.cost := gate_pricing 1 |}.

Definition create_mock_qpus : list QPUResource.t :=
  [create_premium_qpu; create_standard_qpu; create_budget_qpu;
   create_capacity_qpu; create_available_qpu; create_inactive_qpu].

(** [QPUS = create_mock_qpus()], [qubind = QuBindEngine(QPUS)] *)
Definition QPUS : list QPUResource.t := create_mock_qpus.

Definition qubind : QuBindEngine := {| qpus := QPUS |}.


(** A workload that asks for more qubits than any resource of the pool
    has. *)
Definition oversized_circuit : QuantumCircuit.t :=
  {| QuantumCircuit.id := "c1"; QuantumCircuit.name := "oversized";
     QuantumCircuit.qubits_required := 200; QuantumCircuit.shots := 1000;
     QuantumCircuit.gate_counts := {[ GateType.H := 1%Z ]}; QuantumCircuit.depth := 1;
     QuantumCircuit.qubits_used := {[ 0%Z ]};
     QuantumCircuit.measurements := ∅ |}.

(** The names of the computed properties. *)
Definition computed_names : list string :=
  ["fidelity"; "cost"; "normalized_cost"; "normalized_workload"; "circuit_depth"].

(** ** Matching phase *)

Lemma constraints_loop_true self qpu circuit constraints :
  constraints_loop self qpu circuit constraints = true <->
  Forall (fun constraint => Constraint.evaluate constraint qpu circuit (Some self) = Ok true) constraints.
Proof.
  induction constraints as [|k ks IH]; simpl.
  - split; [constructor | reflexivity].
  - destruct (Constraint.evaluate k qpu circuit (Some self)) as [[|]|e] eqn:Hk; simpl.
    + rewrite IH. split.
      * intros Hks. constructor; [exact Hk | exact Hks].
      * intros Hall. inversion Hall; assumption.
    + split; [discriminate |]. intros Hall. inversion Hall; congruence.
    + split; [discriminate |]. intros Hall. inversion Hall; congruence.
Qed.

Lemma _is_feasible_eligible self qpu circuit constraints :
  _is_feasible self qpu circuit constraints = true <->
  eligible self circuit constraints qpu.
Proof.
  unfold _is_feasible, eligible.
  destruct (QPUResource.available qpu); simpl.
  - destruct (Z.ltb_spec (QPUResource.qubits qpu) (QuantumCircuit.qubits_required circuit)).
    + split; [discriminate | lia].
    + rewrite constraints_loop_true. split; [intros ?; repeat split; [lia | assumption] | tauto].
  - split; [discriminate | intros [? _]; discriminate].
Qed.

Lemma matching_loop_filter self circuit constraints pool acc :
  foldl (fun feasible_qpus qpu =>
           if _is_feasible self qpu circuit constraints
           then feasible_qpus ++ [qpu]
           else feasible_qpus) acc pool
  = acc ++ filter (eligible self circuit constraints) pool.
Proof.
  revert acc. induction pool as [|q pool IH]; intros acc; simpl.
  - by rewrite app_nil_r.
  - rewrite IH. rewrite filter_cons.
    destruct (_is_feasible self q circuit constraints) eqn:Hq.
    + apply _is_feasible_eligible in Hq. rewrite decide_True by assumption.
      by rewrite <- app_assoc.
    + rewrite decide_False; [reflexivity |].
      intros Hel. apply _is_feasible_eligible in Hel. congruence.
Qed.

(** C1: the matching phase returns exactly the eligible resources of the
    pool, in pool order; a constraint that raises only makes its own
    resource ineligible. *)
Theorem matching_phase_filter self circuit constraints :
  matching_phase self circuit constraints
  = filter (eligible self circuit constraints) (qpus self).
Proof. unfold matching_phase. by rewrite matching_loop_filter. Qed.

(** ** Optimization phase *)

(** The state of the scan after a best candidate [b] is recorded: the
    list read so far is [pre ++ b :: post], every score in [pre] is
    strictly above the best one and every score in [post] at least it. *)
Lemma optimization_scan circuit weights rest :
  forall pre b post,
    Forall (fun q => score circuit weights b < score circuit weights q)%R pre ->
    Forall (fun q => score circuit weights b <= score circuit weights q)%R post ->
    exists best l1 l2,
      (foldl (fun best qpu =>
                let fom := _calculate_figure_of_merit qpu circuit weights in
                if below fom best.2 then (Some qpu, Score fom) else best)
             (Some b, Score (score circuit weights b)) rest).1 = Some best /\
      pre ++ b :: post ++ rest = l1 ++ best :: l2 /\
      Forall (fun q => score circuit weights best < score circuit weights q)%R l1 /\
      Forall (fun q => score circuit weights best <= score circuit weights q)%R l2.
Proof.
  induction rest as [|x rest IH]; intros pre b post Hpre Hpost.
  - exists b, pre, post. simpl. rewrite app_nil_r. auto.
  - cbn [foldl]. cbn [snd below]. fold (score circuit weights x).
    case_bool_decide as Hlt.
    + destruct (IH (pre ++ b :: post) x []) as (best & l1 & l2 & Hbest & Hsplit & H1 & H2).
      * apply Forall_app. split.
        -- eapply Forall_impl; [exact Hpre |]. intros q Hq. simpl in Hq. lra.
        -- constructor; [exact Hlt |].
           eapply Forall_impl; [exact Hpost |]. intros q Hq. simpl in Hq. lra.
      * constructor.
      * exists best, l1, l2. repeat split; try assumption.
        rewrite <- Hsplit. simpl. rewrite <- !app_assoc. reflexivity.
    + destruct (IH pre b (post ++ [x])) as (best & l1 & l2 & Hbest & Hsplit & H1 & H2).
      * exact Hpre.
      * apply Forall_app. split; [exact Hpost |]. constructor; [lra | constructor].
      * exists best, l1, l2. repeat split; try assumption.
        rewrite <- Hsplit. rewrite <- !app_assoc. reflexivity.
Qed.

(** C2: on a non-empty feasible list the optimization phase returns a
    resource of minimal figure of merit, and of the minimal ones the first
    of the list: all before it score strictly more, all after it at
    least as much. *)
Theorem optimization_phase_first_minimum self feasible_qpus circuit weights :
  feasible_qpus <> [] ->
  exists best l1 l2,
    optimization_phase self feasible_qpus circuit weights = Ok (Some best) /\
    feasible_qpus = l1 ++ best :: l2 /\
    Forall (fun q => _calculate_figure_of_merit best circuit weights
                     < _calculate_figure_of_merit q circuit weights)%R l1 /\
    Forall (fun q => _calculate_figure_of_merit best circuit weights
                     <= _calculate_figure_of_merit q circuit weights)%R l2.
Proof.
  destruct feasible_qpus as [|b rest]; [congruence |]. intros _.
  destruct (optimization_scan circuit weights rest [] b [])
    as (best & l1 & l2 & Hbest & Hsplit & H1 & H2); [constructor | constructor |].
  exists best, l1, l2. repeat split; try assumption.
  unfold optimization_phase. f_equal. exact Hbest.
Qed.

Lemma optimization_phase_witness :
  exists best l1 l2,
    optimization_phase example_engine (qpus example_engine)
      measure_only_circuit default_weights = Ok (Some best) /\
    qpus example_engine = l1 ++ best :: l2 /\
    Forall (fun q => _calculate_figure_of_merit best measure_only_circuit default_weights
                     < _calculate_figure_of_merit q measure_only_circuit default_weights)%R l1 /\
    Forall (fun q => _calculate_figure_of_merit best measure_only_circuit default_weights
                     <= _calculate_figure_of_merit q measure_only_circuit default_weights)%R l2.
Proof.
  apply (optimization_phase_first_minimum example_engine (qpus example_engine)
           measure_only_circuit default_weights).
  discriminate.
Defined.

(** C6: with an empty feasible list the optimization phase raises
    [ValueError("No feasible QPUs found")], returns no resource, and the
    error passes through whatever the caller does with the result. *)
Theorem optimization_phase_empty self circuit weights :
  optimization_phase self [] circuit weights = Raise (ValueError "No feasible QPUs found") /\
  (forall best, optimization_phase self [] circuit weights <> Ok best) /\
  (forall (B : Type) (continuation : option QPUResource.t -> result B),
     optimization_phase self [] circuit weights ≫= continuation
     = Raise (ValueError "No feasible QPUs found")).
Proof. repeat split. intros best Hbest. discriminate. Qed.

(** ** Ranking *)

Lemma ranking_loop_map circuit weights feasible acc :
  foldl (fun ranked_qpus qpu =>
           let qpu_fom := _calculate_figure_of_merit qpu circuit weights in
           ranked_qpus ++ [ranked_entry qpu qpu_fom]) acc feasible
  = acc ++ map (fun qpu => ranked_entry qpu (score circuit weights qpu)) feasible.
Proof.
  revert acc. induction feasible as [|q l IH]; intros acc; simpl.
  - by rewrite app_nil_r.
  - rewrite IH. by rewrite <- app_assoc.
Qed.

Section py_sort.
Context {A : Type} (key : A -> R).

Lemma sort_insert_perm x l : sort_insert key x l ≡ₚ x :: l.
Proof.
  induction l as [|y l IH]; simpl; [reflexivity |].
  case_bool_decide; [| reflexivity].
  rewrite IH. apply Permutation_swap.
Qed.

Lemma py_sort_perm l : py_sort key l ≡ₚ l.
Proof.
  induction l as [|x l IH]; simpl; [reflexivity |].
  rewrite sort_insert_perm. by rewrite IH.
Qed.




End py_sort.


(** The ranking block is what [bind_qpus] returns as [ranked_qpus] when
    the request carries figures of merit and asks for a ranking. *)
Lemma bind_qpus_ranked qubind circuit constraints request_figures_of_merit weights :
  request_figures_of_merit <> ∅ ->
  OptimizationWeights.new
    (get_default request_figures_of_merit "cost_weight" (33 / 100))
    (get_default request_figures_of_merit "error_weight" (33 / 100))
    (get_default request_figures_of_merit "workload_weight" (34 / 100)) = Ok weights ->
  matching_phase qubind circuit constraints <> [] ->
  exists result,
    bind_qpus qubind circuit constraints request_figures_of_merit true = Ok result /\
    ranked_qpus result
    = Some (rank_qpus (matching_phase qubind circuit constraints) circuit weights).
Proof.
  intros Hfoms Hweights Hfeasible. unfold bind_qpus, bind_body. rewrite Hweights.
  cbn [mbind result_bind].
  destruct (matching_phase qubind circuit constraints) as [|first rest] eqn:Hmatch;
    [congruence |].
  rewrite decide_False by exact Hfoms.
  destruct (optimization_scan circuit weights rest [] first [])
    as (best & l1 & l2 & Hbest & _); [constructor | constructor |].
  unfold optimization_phase. cbn [foldl below snd]. unfold score in Hbest.
  rewrite Hbest. cbn. eauto.
Qed.

(** ** Fidelity *)

Section fidelity_loop.
Context `{Countable K} (table : gmap K R).

Lemma fidelity_foldl acc (items : list (K * Z)) :
  foldl (fun acc kc =>
           match table !! kc.1 with
           | Some f => (acc * float_pow f kc.2)%R
           | None => acc
           end) acc items
  = (acc * Rprod (map (count_factor table) items))%R.
Proof.
  revert acc. induction items as [|kc items IH]; intros acc; simpl.
  - lra.
  - rewrite IH. unfold count_factor at 2. destruct (table !! kc.1); lra.
Qed.

Lemma Rprod_perm (l l' : list R) : l ≡ₚ l' -> Rprod l = Rprod l'.
Proof. induction 1; simpl; try lra; congruence. Qed.

Lemma fidelity_loop_insert k n (counts : gmap K Z) :
  counts !! k = None ->
  fidelity_loop table (<[k:=n]> counts)
  = (count_factor table (k, n) * fidelity_loop table counts)%R.
Proof.
  intros Hk. unfold fidelity_loop. rewrite !fidelity_foldl.
  rewrite (Rprod_perm _ (map (count_factor table) ((k, n) :: map_to_list counts))).
  - simpl. lra.
  - apply Permutation_map. by apply map_to_list_insert.
Qed.

Lemma product_of_insert k x (m : gmap K R) :
  m !! k = None -> product_of (<[k:=x]> m) = (x * product_of m)%R.
Proof.
  intros Hk. unfold product_of. rewrite map_fold_insert_L; [reflexivity | | exact Hk].
  intros. lra.
Qed.

(** The loop of the code computes the product over the kinds present in
    both mappings. *)
Lemma fidelity_loop_product (counts : gmap K Z) :
  fidelity_loop table counts = product_of (map_zip_with float_pow table counts).
Proof.
  induction counts as [|k n counts Hk IH] using map_ind.
  - rewrite map_zip_with_empty_r. unfold fidelity_loop, product_of.
    rewrite map_to_list_empty, map_fold_empty. reflexivity.
  - rewrite fidelity_loop_insert by exact Hk. rewrite IH. unfold count_factor. simpl.
    destruct (table !! k) as [f|] eqn:Hf.
    + replace (map_zip_with float_pow table (<[k:=n]> counts))
        with (<[k:=float_pow f n]> (map_zip_with float_pow table counts)).
      * rewrite product_of_insert; [reflexivity |].
        rewrite map_lookup_zip_with, Hk. by destruct (table !! k).
      * apply map_eq. intros j. rewrite map_lookup_zip_with.
        destruct (decide (k = j)) as [<-|Hne].
        -- rewrite !lookup_insert_eq, Hf. reflexivity.
        -- rewrite !lookup_insert_ne by exact Hne. by rewrite map_lookup_zip_with.
    + replace (map_zip_with float_pow table (<[k:=n]> counts))
        with (map_zip_with float_pow table counts); [lra |].
      apply map_eq. intros j. rewrite !map_lookup_zip_with.
      destruct (decide (k = j)) as [<-|Hne].
      * rewrite lookup_insert_eq, Hf, Hk. reflexivity.
      * by rewrite lookup_insert_ne.
Qed.


End fidelity_loop.


(** C4, as stated, fails: without gates the code returns 1.0 and never
    looks at the measurements, while the product of the specification is
    one half. *)
Lemma fidelity_ignores_measurements_without_gates :
  _calculate_fidelity noisy_readout_qpu measure_only_circuit = 1%R /\
  fidelity_product noisy_readout_qpu measure_only_circuit = (1 / 2)%R /\
  _calculate_fidelity noisy_readout_qpu measure_only_circuit
  <> fidelity_product noisy_readout_qpu measure_only_circuit.
Proof.
  assert (_calculate_fidelity noisy_readout_qpu measure_only_circuit = 1%R) as Hcode.
  { unfold _calculate_fidelity. simpl. rewrite decide_True; reflexivity. }
  assert (fidelity_product noisy_readout_qpu measure_only_circuit = (1 / 2)%R) as Hspec.
  { unfold fidelity_product. simpl.
    rewrite map_zip_with_empty, map_zip_with_singleton.
    unfold product_of. rewrite map_fold_empty, map_fold_singleton.
    unfold float_pow. simpl. lra. }
  rewrite Hcode, Hspec. repeat split. lra.
Qed.

(** C4, amended: with a non-empty gate-count mapping the fidelity is the
    product of the specification; with an empty one it is 1.0, whatever
    the measurements. *)
Theorem _calculate_fidelity_product qpu circuit :
  _calculate_fidelity qpu circuit
  = if decide (QuantumCircuit.gate_counts circuit = ∅) then 1%R
    else fidelity_product qpu circuit.
Proof.
  unfold _calculate_fidelity, fidelity_product.
  destruct (decide (QuantumCircuit.gate_counts circuit = ∅)); [reflexivity |].
  by rewrite !fidelity_loop_product.
Qed.

(** ** Figure of merit *)






(** ** Weights *)

(** The relative tolerance of [math.isclose] around 1.0, as an interval. *)
Lemma isclose_one total :
  isclose total 1 (1 / 1000000) = true <->
  (999999 / 1000000 <= total <= 1000000 / 999999)%R.
Proof.
  unfold isclose. rewrite bool_decide_eq_true.
  unfold Rabs, Rmax.
  repeat match goal with
         | |- context [Rcase_abs ?x] => destruct (Rcase_abs x)
         | |- context [Rle_dec ?x ?y] => destruct (Rle_dec x y)
         | H : context [Rle_dec ?x ?y] |- _ => destruct (Rle_dec x y)
         end; split; intros; lra.
Qed.

Lemma new_in_range c e w :
  (0 <= c <= 1)%R -> (0 <= e <= 1)%R -> (0 <= w <= 1)%R ->
  OptimizationWeights.new c e w
  = if isclose (c + e + w) 1 (1 / 1000000)
    then Ok {| OptimizationWeights.cost_weight := c;
               OptimizationWeights.error_weight := e;
               OptimizationWeights.workload_weight := w |}
    else Raise (ValueError "Weights must sum to 1.0").
Proof.
  intros Hc He Hw. unfold OptimizationWeights.new, OptimizationWeights.field_ok.
  rewrite !bool_decide_eq_true_2 by lra. simpl.
  unfold OptimizationWeights.model_post_init. simpl.
  by destruct (isclose (c + e + w) 1 (1 / 1000000)).
Qed.

(** C7, as stated, fails when the tolerance is read as an absolute one:
    these weights are accepted although their sum is farther than 1e-6
    from 1.0. *)
Lemma weights_accepted_beyond_absolute_tolerance :
  let '(c, e, w) := slightly_heavy in
  (0 <= c <= 1 /\ 0 <= e <= 1 /\ 0 <= w <= 1)%R /\
  OptimizationWeights.new c e w
  = Ok {| OptimizationWeights.cost_weight := c;
          OptimizationWeights.error_weight := e;
          OptimizationWeights.workload_weight := w |} /\
  ~ within_tolerance (c + e + w).
Proof.
  simpl. split; [lra |]. split.
  - rewrite new_in_range by lra.
    rewrite (proj2 (isclose_one _)); [reflexivity | lra].
  - unfold within_tolerance, Rabs. destruct (Rcase_abs _); lra.
Qed.

(** C7, amended: for weights in [[0,1]] construction succeeds exactly
    when the sum is within the relative tolerance of [math.isclose], that
    is between 0.999999 and 1/0.999999; every sum within 1e-6 of 1.0 is
    accepted; any other sum raises [ValueError]; an accepted instance holds
    the three weights as given. *)
Theorem OptimizationWeights_new_iff c e w :
  (0 <= c <= 1)%R -> (0 <= e <= 1)%R -> (0 <= w <= 1)%R ->
  let accepted := (999999 / 1000000 <= c + e + w <= 1000000 / 999999)%R in
  let instance := {| OptimizationWeights.cost_weight := c;
                     OptimizationWeights.error_weight := e;
                     OptimizationWeights.workload_weight := w |} in
  ((exists self, OptimizationWeights.new c e w = Ok self) <-> accepted) /\
  (within_tolerance (c + e + w) -> accepted) /\
  (~ accepted ->
   OptimizationWeights.new c e w = Raise (ValueError "Weights must sum to 1.0")) /\
  (forall self, OptimizationWeights.new c e w = Ok self -> self = instance).
Proof.
  intros Hc He Hw accepted instance. subst accepted instance.
  rewrite new_in_range by assumption.
  pose proof (isclose_one (c + e + w)) as Hclose.
  destruct (isclose (c + e + w) 1 (1 / 1000000)).
  - assert (999999 / 1000000 <= c + e + w <= 1000000 / 999999)%R as Hin by by apply Hclose.
    split; [split; [intros _; exact Hin | eauto] |].
    split; [intros _; exact Hin |].
    split; [intros Hout; contradiction |].
    intros self Hself. congruence.
  - assert (~ (999999 / 1000000 <= c + e + w <= 1000000 / 999999)%R) as Hout.
    { intros Hin. apply Hclose in Hin. discriminate. }
    split; [split; [intros [self Hself]; discriminate | intros Hin; contradiction] |].
    split.
    + unfold within_tolerance, Rabs. intros Htol. exfalso. apply Hout.
      destruct (Rcase_abs _); lra.
    + split; [reflexivity | intros self Hself; discriminate].
Qed.

Lemma OptimizationWeights_new_witness :
  exists self, OptimizationWeights.new (33 / 100) (33 / 100) (34 / 100) = Ok self.
Proof.
  refine (proj2 (proj1 (OptimizationWeights_new_iff (33 / 100) (33 / 100) (34 / 100) _ _ _)) _);
    lra.
Defined.

(** ** Strings *)

Lemma lstrip_length s : String.length (lstrip s) <= String.length s.
Proof. induction s as [|c s IH]; simpl; [lia |]. destruct (is_space c); simpl; lia. Qed.

Lemma rstrip_length s : String.length (rstrip s) <= String.length s.
Proof.
  induction s as [|c s IH]; simpl; [lia |].
  destruct (rstrip s); simpl in *; [destruct (is_space c); simpl; lia | lia].
Qed.

Lemma py_strip_length s : String.length (py_strip s) <= String.length s.
Proof.
  unfold py_strip. pose proof (lstrip_length (rstrip s)). pose proof (rstrip_length s). lia.
Qed.

Lemma prefix_length p s : String.prefix p s = true -> String.length p <= String.length s.
Proof.
  revert s. induction p as [|a p IH]; intros s Hp; simpl; [lia |].
  destruct s as [|b s]; simpl in Hp; [discriminate |].
  destruct (ascii_dec a b); [| discriminate]. apply IH in Hp. simpl. lia.
Qed.

(** The parts of a split and the separators between them make up the
    string. *)
Lemma split_from_length sep s :
  forall skip, skip <= String.length s -> 0 < String.length sep ->
    let parts := split_from sep skip s in
    0 < length parts /\
    total_length parts + (length parts - 1) * String.length sep + skip = String.length s.
Proof.
  induction s as [|c s IH]; intros skip Hskip Hsep; cbn zeta; cbn [split_from].
  - simpl in *. lia.
  - cbn [String.length] in *. destruct skip as [|k].
    + destruct (String.prefix sep (String c s)) eqn:Hp.
      * apply prefix_length in Hp. cbn [String.length] in Hp.
        destruct (IH (String.length sep - 1)) as [Hpos Hlen]; [lia | lia |].
        cbn [length total_length foldr String.length]. fold (total_length (split_from sep (String.length sep - 1) s)).
        split; [lia |].
        destruct (length (split_from sep (String.length sep - 1) s)); [lia |].
        simpl in *. lia.
      * destruct (IH 0) as [Hpos Hlen]; [lia | lia |].
        destruct (split_from sep 0 s) as [|p ps]; [simpl in Hpos; lia |].
        cbn [length total_length foldr String.length] in *.
        fold (total_length ps) in *. split; lia.
    + destruct (IH k) as [Hpos Hlen]; [lia | lia |]. split; lia.
Qed.

Lemma split_two_length s sep part0 part1 :
  0 < String.length sep ->
  py_split s sep = [part0; part1] ->
  String.length part0 < String.length s /\ String.length part1 < String.length s.
Proof.
  intros Hsep Hsplit. unfold py_split in Hsplit.
  destruct (split_from_length sep s 0) as [_ Hlen]; [lia | exact Hsep |].
  rewrite Hsplit in Hlen. simpl in Hlen. lia.
Qed.

Lemma token_length op : String.length (token op) = 3.
Proof. by destruct op. Qed.

(** ** The expression evaluator: recursion *)

Section evaluate_recursion.
Context (qpu : option QPUResource.t) (circuit : option QuantumCircuit.t)
        (engine : option QuBindEngine).

Lemma binary_block_ext rec1 rec2 op expression otherwise1 otherwise2 :
  (forall e, String.length e < String.length expression -> rec1 e = rec2 e) ->
  otherwise1 = otherwise2 ->
  binary_block rec1 op expression otherwise1 = binary_block rec2 op expression otherwise2.
Proof.
  intros Hrec ->. unfold binary_block.
  destruct (py_in (token op) expression); [| reflexivity].
  destruct (py_split expression (token op)) as [|part0 [|part1 [|]]] eqn:Hsplit;
    try reflexivity.
  apply split_two_length in Hsplit as [H0 H1]; [| rewrite token_length; lia].
  pose proof (py_strip_length part0). pose proof (py_strip_length part1).
  rewrite (Hrec (py_strip part0)), (Hrec (py_strip part1)) by lia. reflexivity.
Qed.

Lemma evaluate_body_ext rec1 rec2 expression :
  (forall e, String.length e < String.length expression -> rec1 e = rec2 e) ->
  evaluate_body qpu circuit engine rec1 expression
  = evaluate_body qpu circuit engine rec2 expression.
Proof.
  intros Hrec. unfold evaluate_body, arithmetic.
  rewrite (binary_block_ext rec1 rec2 Mul expression _
             (binary_block rec2 Div expression
                (binary_block rec2 Add expression
                   (binary_block rec2 Sub expression (literal expression)))));
    [reflexivity | exact Hrec |].
  repeat (apply binary_block_ext; [exact Hrec |]). reflexivity.
Qed.

Lemma evaluate_fuel_enough n :
  forall m expression,
    String.length expression < n -> String.length expression < m ->
    evaluate_fuel qpu circuit engine n expression
    = evaluate_fuel qpu circuit engine m expression.
Proof.
  induction n as [|n IH]; intros m expression Hn Hm; [lia |].
  destruct m as [|m]; [lia |]. simpl.
  apply evaluate_body_ext. intros e He. apply IH; lia.
Qed.

(** The recursion equation of [evaluate_expression]: the fuel never
    runs out. *)
Lemma evaluate_expression_unfold expression :
  evaluate_expression expression qpu circuit engine
  = evaluate_body qpu circuit engine
      (fun e => evaluate_expression e qpu circuit engine) expression.
Proof.
  unfold evaluate_expression at 1. cbn [evaluate_fuel].
  apply evaluate_body_ext. intros e He.
  unfold evaluate_expression. apply evaluate_fuel_enough; lia.
Qed.
End evaluate_recursion.

(** ** The expression evaluator: splitting *)

Lemma split_from_count sep s :
  forall skip, length (split_from sep skip s) = Datatypes.S (count_from sep skip s).
Proof.
  induction s as [|c s IH]; intros skip; cbn [split_from count_from]; [reflexivity |].
  destruct skip as [|k]; [| apply IH].
  destruct (String.prefix sep (String c s)).
  - cbn [length]. by rewrite IH.
  - specialize (IH 0). destruct (split_from sep 0 s); [discriminate | exact IH].
Qed.

Lemma py_split_count s sep : length (py_split s sep) = Datatypes.S (py_count s sep).
Proof. apply split_from_count. Qed.

Lemma py_in_false_split sep s : py_in sep s = false -> py_split s sep = [s].
Proof.
  unfold py_split. induction s as [|c s IH]; intros Hin; [reflexivity |].
  cbn [py_in] in Hin. apply orb_false_elim in Hin as [Hp Hin].
  cbn [split_from]. rewrite Hp, (IH Hin). reflexivity.
Qed.

Lemma binary_block_absent rec op expression otherwise :
  py_in (token op) expression = false ->
  binary_block rec op expression otherwise = otherwise.
Proof. intros Hin. unfold binary_block. by rewrite Hin. Qed.

Lemma binary_block_repeated rec op expression otherwise :
  2 <= py_count expression (token op) ->
  binary_block rec op expression otherwise = otherwise.
Proof.
  intros Hcount. unfold binary_block.
  destruct (py_in (token op) expression); [| reflexivity].
  pose proof (py_split_count expression (token op)) as Hlen.
  destruct (py_split expression (token op)) as [|part0 [|part1 [|]]];
    simpl in Hlen; try reflexivity; lia.
Qed.

Lemma binary_block_split rec op expression otherwise part0 part1 :
  py_split expression (token op) = [part0; part1] ->
  binary_block rec op expression otherwise
  = rec (py_strip part0) ≫= fun left =>
    try_except_ValueError
      (py_float (py_strip part1) ≫= fun right => py_arith op left (VFloat right))
      (rec (py_strip part1) ≫= fun right => py_arith op left right).
Proof.
  intros Hsplit. unfold binary_block.
  destruct (py_in (token op) expression) eqn:Hin.
  - by rewrite Hsplit.
  - apply py_in_false_split in Hin. congruence.
Qed.

Lemma evaluate_body_arithmetic qpu circuit engine rec expression :
  property_branch expression qpu circuit engine = false ->
  evaluate_body qpu circuit engine rec expression = arithmetic rec expression.
Proof.
  unfold property_branch, evaluate_body. intros Hbranch.
  apply orb_false_elim in Hbranch as [Hbranch H3].
  apply orb_false_elim in Hbranch as [H1 H2].
  destruct (startswith expression "qpu."), qpu as [q|];
    destruct (startswith expression "circuit."), circuit as [c|];
    destruct (startswith expression "computed."), engine as [g|];
    simpl in *; try discriminate; reflexivity.
Qed.

(** C5, as stated, fails: [1 + 2 * 3] has one [+] and one [*] token and
    evaluates to 9.0, the product of [1 + 2] and [3]; splitting on the
    [+] first would give 7.0. *)
Lemma multiplication_splits_before_addition :
  py_count "1 + 2 * 3" " + " = 1 /\
  py_count "1 + 2 * 3" " * " = 1 /\
  evaluate_expression "1 + 2 * 3" None None None = Ok (VFloat 9) /\
  combine Add "1" "2 * 3" None None None = Ok (VFloat 7) /\
  evaluate_expression "1 + 2 * 3" None None None <> combine Add "1" "2 * 3" None None None.
Proof.
  assert (evaluate_expression "1 + 2 * 3" None None None = Ok (VFloat 9)) as Hcode.
  { cbv -[Rplus Rmult Rminus Rdiv Rinv Ropp IZR float_of_decimal].
    do 2 f_equal. unfold float_of_decimal. simpl. lra. }
  assert (combine Add "1" "2 * 3" None None None = Ok (VFloat 7)) as Hspec.
  { cbv -[Rplus Rmult Rminus Rdiv Rinv Ropp IZR float_of_decimal].
    do 2 f_equal. unfold float_of_decimal. simpl. lra. }
  rewrite Hcode, Hspec. repeat split.
  intros Heq. injection Heq as Heq. lra.
Qed.

(** C5, amended: an expression [a + b * c] that [split] cuts at its [*]
    token into [a + b] and [c], and that no property branch answers, is
    split on the [*] first; [a + b] and [c] are evaluated as the two
    sub-expressions and combined with multiplication. *)
Theorem evaluate_expression_splits_on_mul_first a b c qpu circuit engine :
  let expression := a +:+ " + " +:+ b +:+ " * " +:+ c in
  property_branch expression qpu circuit engine = false ->
  py_split expression " * " = [a +:+ " + " +:+ b; c] ->
  evaluate_expression expression qpu circuit engine
  = combine Mul (a +:+ " + " +:+ b) c qpu circuit engine.
Proof.
  intros expression Hbranch Hsplit.
  rewrite evaluate_expression_unfold.
  rewrite evaluate_body_arithmetic by exact Hbranch.
  unfold arithmetic. rewrite (binary_block_split _ Mul _ _ _ _ Hsplit).
  reflexivity.
Qed.

Lemma splits_on_mul_first_witness :
  evaluate_expression "1 + 2 * 3" None None None = combine Mul "1 + 2" "3" None None None.
Proof.
  apply (evaluate_expression_splits_on_mul_first "1" "2" "3" None None None);
    reflexivity.
Defined.

(** ** The expression evaluator: literals *)

Lemma rstrip_cons c s : is_space c = false -> rstrip (String c s) = String c (rstrip s).
Proof. intros Hc. cbn [rstrip]. rewrite Hc. by destruct (rstrip s). Qed.

Lemma run_reject {St : Type} (step : St -> ascii -> option St) c s :
  (forall st, step st c = None) -> has_char c s = true ->
  forall st, run step st s = None.
Proof.
  intros Hstep. induction s as [|a s IH]; intros Hin st; [discriminate |].
  cbn [has_char] in Hin. cbn [run].
  destruct (Ascii.eqb_spec a c) as [->|Hne].
  - by rewrite Hstep.
  - destruct (step st a); [apply IH; exact Hin | reflexivity].
Qed.

Lemma has_char_lstrip c s :
  is_space c = false -> has_char c s = true -> has_char c (lstrip s) = true.
Proof.
  intros Hc. induction s as [|a s IH]; intros Hin; [discriminate |].
  cbn [lstrip]. destruct (is_space a) eqn:Ha; [| exact Hin].
  apply IH. cbn [has_char] in Hin.
  destruct (Ascii.eqb_spec a c) as [->|Hne]; [congruence | exact Hin].
Qed.

Lemma has_char_rstrip c s :
  is_space c = false -> has_char c s = true -> has_char c (rstrip s) = true.
Proof.
  intros Hc. induction s as [|a s IH]; intros Hin; [discriminate |].
  cbn [has_char] in Hin.
  destruct (Ascii.eqb_spec a c) as [->|Hne].
  - rewrite rstrip_cons by exact Hc. cbn [has_char]. by rewrite Ascii.eqb_refl.
  - specialize (IH Hin). cbn [rstrip].
    destruct (rstrip s); [discriminate |].
    cbn [has_char] in *. rewrite IH. by rewrite orb_true_r.
Qed.

Lemma has_char_strip c s :
  is_space c = false -> has_char c s = true -> has_char c (py_strip s) = true.
Proof. intros Hc Hin. by apply has_char_lstrip, has_char_rstrip. Qed.

Lemma has_char_split_sign c s :
  c <> "+"%char -> c <> "-"%char ->
  has_char c s = true -> has_char c (split_sign s).2 = true.
Proof.
  intros Hplus Hminus Hin. unfold split_sign.
  destruct s as [|a s]; [discriminate |].
  cbn [has_char] in Hin.
  destruct (Ascii.eqb_spec a c) as [->|Hne].
  - destruct (ascii_dec c "+") as [->|]; [congruence |].
    destruct (ascii_dec c "-") as [->|]; [congruence |].
    assert (has_char c (String c s) = true) as Hhead
      by (cbn [has_char]; by rewrite Ascii.eqb_refl).
    destruct c as [[] [] [] [] [] [] [] []]; try exact Hhead; congruence.
  - simpl in Hin.
    assert (has_char c (String a s) = true) as Hall
      by (cbn [has_char]; rewrite Hin; by rewrite orb_true_r).
    destruct a as [[] [] [] [] [] [] [] []]; try exact Hall; exact Hin.
Qed.

Lemma lower_star c : Ascii.eqb (lower c) "*" = Ascii.eqb c "*".
Proof. destruct c as [[] [] [] [] [] [] [] []]; reflexivity. Qed.

Lemma has_star_lower s : has_char "*" (lower_string s) = has_char "*" s.
Proof.
  induction s as [|a s IH]; [reflexivity |].
  cbn [lower_string has_char]. by rewrite lower_star, IH.
Qed.

(** A string with a [*] in it is no numeric literal. *)
Lemma py_int_star s :
  has_char "*" s = true ->
  py_int s = Raise (ValueError "invalid literal for int() with base 10").
Proof.
  intros Hin. unfold py_int.
  pose proof (has_char_split_sign "*" (py_strip s)) as Hbody.
  destruct (split_sign (py_strip s)) as [neg body]. simpl in Hbody.
  rewrite (run_reject int_step "*" body); [reflexivity | | ].
  - intros [[] n]; reflexivity.
  - apply Hbody; [discriminate | discriminate |]. by apply has_char_strip.
Qed.

Lemma py_float_star s :
  has_char "*" s = true ->
  py_float s = Raise (ValueError "could not convert string to float").
Proof.
  intros Hin. unfold py_float, py_float_decimal.
  pose proof (has_char_split_sign "*" (py_strip s)) as Hbody.
  destruct (split_sign (py_strip s)) as [neg body]. simpl in Hbody.
  assert (has_char "*" body = true) as Hstar.
  { apply Hbody; [discriminate | discriminate |]. by apply has_char_strip. }
  assert (forall name, has_char "*" name = false ->
                       String.eqb (lower_string body) name = false) as Hname.
  { intros name Hno. destruct (String.eqb_spec (lower_string body) name) as [Heq|]; [| reflexivity].
    rewrite <- Heq, has_star_lower in Hno. congruence. }
  rewrite !Hname by reflexivity. simpl.
  rewrite (run_reject float_step "*" body); [reflexivity | | exact Hstar].
  intros st. reflexivity.
Qed.

Lemma literal_star expression :
  has_char "*" expression = true -> literal expression = Ok (VStr expression).
Proof.
  intros Hin. unfold literal. by rewrite py_int_star, py_float_star.
Qed.

Lemma prefix_cons a p s :
  String.prefix (String a p) s = true ->
  exists s', s = String a s' /\ String.prefix p s' = true.
Proof.
  destruct s as [|b s]; cbn [String.prefix]; [discriminate |].
  destruct (ascii_dec a b) as [<-|]; [eauto | discriminate].
Qed.

Lemma py_in_mul_has_star s : py_in " * " s = true -> has_char "*" s = true.
Proof.
  induction s as [|a s IH]; intros Hin.
  - cbn in Hin. discriminate.
  - cbn [py_in] in Hin. apply orb_true_iff in Hin as [Hp|Hin].
    + apply prefix_cons in Hp as (s1 & Hs1 & Hp).
      apply prefix_cons in Hp as (s2 & -> & _).
      injection Hs1 as _ ->. cbn [has_char]. rewrite Ascii.eqb_refl.
      by rewrite orb_true_r.
    + cbn [has_char]. rewrite (IH Hin). by rewrite orb_true_r.
Qed.

(** A string that starts with the letter [c] is no numeric literal. *)
Lemma literal_letter_c s : literal (String "c" s) = Ok (VStr (String "c" s)).
Proof.
  unfold literal, py_int, py_float, py_float_decimal, py_strip.
  rewrite rstrip_cons by reflexivity. reflexivity.
Qed.

(** ** The expression evaluator: computed names without an engine *)

Lemma py_in_token_cons op ch rest :
  ch <> " "%char -> py_in (token op) (String ch rest) = py_in (token op) rest.
Proof.
  intros Hch. destruct op; cbn [py_in token String.prefix];
    (destruct (ascii_dec " " ch); [congruence | reflexivity]).
Qed.

Lemma py_in_token_computed op name :
  py_in (token op) ("computed." +:+ name) = py_in (token op) name.
Proof. cbv [append]. by rewrite !py_in_token_cons by discriminate. Qed.

Lemma py_in_prefix p s : String.prefix p s = true -> py_in p s = true.
Proof. intros Hp. destruct s; cbn [py_in]; by rewrite Hp. Qed.

Lemma prefix_append p s : String.prefix p (p +:+ s) = true.
Proof.
  induction p as [|a p IH]; [by destruct s |].
  change (String a p +:+ s) with (String a (p +:+ s)). cbn [String.prefix].
  destruct (ascii_dec a a); [exact IH | congruence].
Qed.

Lemma evaluate_computed_without_context name qpu circuit engine :
  engine = None \/ qpu = None \/ circuit = None ->
  (forall op, py_in (token op) name = false) ->
  evaluate_expression ("computed." +:+ name) qpu circuit engine
  = Ok (VStr ("computed." +:+ name)).
Proof.
  intros Hmissing Hname.
  rewrite evaluate_expression_unfold, evaluate_body_arithmetic.
  - unfold arithmetic.
    rewrite !binary_block_absent by (rewrite py_in_token_computed; apply Hname).
    apply literal_letter_c.
  - unfold property_branch.
    assert (startswith ("computed." +:+ name) "qpu." = false) as -> by reflexivity.
    assert (startswith ("computed." +:+ name) "circuit." = false) as -> by reflexivity.
    destruct Hmissing as [->|[->| ->]]; cbn [present andb orb];
      by rewrite ?andb_false_r.
Qed.

(** C9: an expression [computed.<name>] without an operator token,
    evaluated without an engine (or without a resource or a workload), is
    returned unchanged as a string and nothing is raised; as the
    comparison value of a constraint evaluated without an engine it is the
    operand the operator is applied to. *)
Theorem computed_expression_without_engine name qpu circuit engine :
  engine = None \/ qpu = None \/ circuit = None ->
  (forall op, py_in (token op) name = false) ->
  let expression := "computed." +:+ name in
  evaluate_expression expression qpu circuit engine = Ok (VStr expression) /\
  forall self q c,
    Constraint.custom_fn self = None ->
    Constraint.value self = VStr expression ->
    Constraint.evaluate self q c None
    = Constraint.property_value self q c None ≫= fun property_value =>
      apply_operator (Constraint.operator self) property_value (VStr expression).
Proof.
  intros Hmissing Hname expression. split.
  - by apply evaluate_computed_without_context.
  - intros self q c Hfn Hvalue.
    unfold Constraint.evaluate, Constraint.comparison_value. rewrite Hfn, Hvalue.
    assert (is_expression (VStr expression) = true) as ->.
    { unfold is_expression, expression.
      rewrite (py_in_prefix "computed.") by apply prefix_append.
      by rewrite !orb_true_r. }
    subst expression. cbv beta iota.
    rewrite (evaluate_computed_without_context name (Some q) (Some c) None);
      [reflexivity | by left | exact Hname].
Qed.

Lemma computed_fidelity_witness :
  evaluate_expression "computed.fidelity" None None None = Ok (VStr "computed.fidelity").
Proof.
  refine (proj1 (computed_expression_without_engine "fidelity" None None None _ _)).
  - by left.
  - intros []; reflexivity.
Defined.

(** ** The expression evaluator: repeated operators *)

Lemma py_count_in s sep : 1 <= py_count s sep -> py_in sep s = true.
Proof.
  intros Hcount. destruct (py_in sep s) eqn:Hin; [reflexivity |].
  pose proof (py_split_count s sep) as Hlen.
  rewrite (py_in_false_split _ _ Hin) in Hlen. simpl in Hlen. lia.
Qed.

Lemma property_branch_no_prefix expression qpu circuit engine :
  startswith expression "qpu." = false ->
  startswith expression "circuit." = false ->
  startswith expression "computed." = false ->
  property_branch expression qpu circuit engine = false.
Proof. intros H1 H2 H3. unfold property_branch. by rewrite H1, H2, H3. Qed.

(** C10: in an expression without a property prefix, an operator whose
    token occurs twice or more is not split on: the evaluation is that of
    the remaining operator blocks, in order, then the literal; with two or
    more [*] tokens and no other operator token the expression is returned
    unchanged as a string. *)
Theorem repeated_operator_not_split expression qpu circuit engine :
  startswith expression "qpu." = false ->
  startswith expression "circuit." = false ->
  startswith expression "computed." = false ->
  (forall op,
     2 <= py_count expression (token op) ->
     evaluate_expression expression qpu circuit engine
     = blocks (filter (fun o => o <> op) operator_order)
         (fun e => evaluate_expression e qpu circuit engine) expression) /\
  (2 <= py_count expression " * " ->
   py_in " / " expression = false ->
   py_in " + " expression = false ->
   py_in " - " expression = false ->
   evaluate_expression expression qpu circuit engine = Ok (VStr expression)).
Proof.
  intros H1 H2 H3.
  assert (evaluate_expression expression qpu circuit engine
          = arithmetic (fun e => evaluate_expression e qpu circuit engine) expression)
    as Hbody.
  { rewrite evaluate_expression_unfold.
    apply evaluate_body_arithmetic. by apply property_branch_no_prefix. }
  rewrite Hbody. unfold arithmetic. split.
  - intros op Hcount.
    destruct op; cbn; rewrite (binary_block_repeated _ _ _ _ Hcount); reflexivity.
  - intros Hcount Hdiv Hadd Hsub.
    rewrite (binary_block_repeated _ Mul) by exact Hcount.
    rewrite (binary_block_absent _ Div), (binary_block_absent _ Add),
      (binary_block_absent _ Sub) by assumption.
    apply literal_star, py_in_mul_has_star, py_count_in.
    change (token Mul) with " * " in Hcount. lia.
Qed.

(** Occurrences are counted as [str.count] does: in [2 * * 3] the two
    [*] share a space, [split] finds one separator, and the expression is
    split. *)
Lemma overlapping_tokens_split_once :
  py_count "2 * * 3" " * " = 1 /\
  py_split "2 * * 3" " * " = ["2"; "* 3"] /\
  evaluate_expression "2 * * 3" None None None = Ok (VStr "* 3* 3").
Proof. repeat split. Qed.

Lemma repeated_operator_witness :
  evaluate_expression "a * b * c" None None None = Ok (VStr "a * b * c").
Proof.
  refine (proj2 (repeated_operator_not_split "a * b * c" None None None _ _ _) _ _ _ _);
    reflexivity.
Defined.

(** ** The calculators: shape of the three terms *)

Lemma _normalize_cost_le a b : (a <= b)%R -> (_normalize_cost a <= _normalize_cost b)%R.
Proof.
  intros Hab. unfold _normalize_cost.
  pose proof (exp_pos (- (1 / 100) * (a - 100))) as Ha.
  pose proof (exp_pos (- (1 / 100) * (b - 100))) as Hb.
  assert (exp (- (1 / 100) * (b - 100)) <= exp (- (1 / 100) * (a - 100)))%R as Hexp.
  { destruct (Req_dec a b) as [->|Hne]; [lra |].
    left. apply exp_increasing. lra. }
  set (ea := exp (- (1 / 100) * (a - 100))) in *.
  set (eb := exp (- (1 / 100) * (b - 100))) in *.
  unfold Rdiv. rewrite !Rmult_1_l. apply Rinv_le_contravar; lra.
Qed.

Lemma _normalize_workload_le v w :
  (v <= w)%Z -> (_normalize_workload v <= _normalize_workload w)%R.
Proof.
  intros Hvw. unfold _normalize_workload. apply IZR_le in Hvw.
  apply Rle_min_compat_l. lra.
Qed.



(** X2: the normalized workload is the queue depth over 100 up to a depth
    of 100 and 1 from there on; it never decreases with the depth. *)
Theorem _normalize_workload_saturates v w :
  ((w <= 100)%Z -> _normalize_workload w = (IZR w / 100)%R) /\
  ((100 <= w)%Z -> _normalize_workload w = 1%R) /\
  ((v <= w)%Z -> (_normalize_workload v <= _normalize_workload w)%R).
Proof.
  unfold _normalize_workload. repeat split.
  - intros Hw. apply IZR_le in Hw. apply Rmin_right. lra.
  - intros Hw. apply IZR_le in Hw. apply Rmin_left. lra.
  - apply _normalize_workload_le.
Qed.

Lemma _normalize_workload_saturates_witness : _normalize_workload 250 = 1%R.
Proof. apply (proj1 (proj2 (_normalize_workload_saturates 0 250))). lia. Defined.





(** X4: dominance.  With non-negative weights, a resource that costs no
    more, is at least as faithful and has no longer a queue than another
    one has no higher a figure of merit. *)
Theorem _calculate_figure_of_merit_dominance better worse circuit weights :
  (0 <= OptimizationWeights.cost_weight weights)%R ->
  (0 <= OptimizationWeights.error_weight weights)%R ->
  (0 <= OptimizationWeights.workload_weight weights)%R ->
  (QPUResource.cost better circuit <= QPUResource.cost worse circuit)%R ->
  (_calculate_fidelity worse circuit <= _calculate_fidelity better circuit)%R ->
  (QPUResource.workload better <= QPUResource.workload worse)%Z ->
  (_calculate_figure_of_merit better circuit weights
   <= _calculate_figure_of_merit worse circuit weights)%R.
Proof.
  intros Hc He Hw Hcost Hfid Hload.
  unfold _calculate_figure_of_merit, _calculate_cost.
  pose proof (_normalize_cost_le _ _ Hcost).
  pose proof (_normalize_workload_le _ _ Hload).
  repeat apply Rplus_le_compat; apply Rmult_le_compat_l; lra.
Qed.

Lemma _calculate_figure_of_merit_dominance_witness :
  (_calculate_figure_of_merit idle_qpu measure_only_circuit default_weights
   <= _calculate_figure_of_merit busy_qpu measure_only_circuit default_weights)%R.
Proof.
  apply _calculate_figure_of_merit_dominance; simpl; try lra; try lia.
  unfold _calculate_fidelity. simpl. lra.
Defined.

(** ** Matching: locality *)

(** The engine is only tested for presence: which engine it is, and so
    which pool it holds, makes no difference to a constraint. *)
Lemma Constraint_evaluate_engine constraint qpu circuit engine1 engine2 :
  Constraint.evaluate constraint qpu circuit (Some engine1)
  = Constraint.evaluate constraint qpu circuit (Some engine2).
Proof. reflexivity. Qed.

Lemma eligible_engine self1 self2 circuit constraints qpu :
  eligible self1 circuit constraints qpu <-> eligible self2 circuit constraints qpu.
Proof.
  unfold eligible. rewrite !Forall_forall.
  split; intros (Ha & Hq & Hks); repeat split; try assumption.
Qed.

Lemma matching_phase_eligible self circuit constraints :
  matching_phase self circuit constraints
  = filter (eligible self circuit constraints) (qpus self).
Proof. unfold matching_phase. by rewrite matching_loop_filter. Qed.

(** X5: matching is local to each resource.  The result for a pool made
    of two parts is the result for the first followed by the result for
    the second, and matching the result again changes nothing. *)
Theorem matching_phase_local self circuit constraints pool1 pool2 :
  matching_phase {| qpus := pool1 ++ pool2 |} circuit constraints
  = matching_phase {| qpus := pool1 |} circuit constraints
    ++ matching_phase {| qpus := pool2 |} circuit constraints /\
  matching_phase {| qpus := matching_phase self circuit constraints |} circuit constraints
  = matching_phase self circuit constraints.
Proof.
  rewrite !matching_phase_eligible. cbn [qpus]. split.
  - rewrite filter_app. f_equal; apply list_filter_iff; intros q; apply eligible_engine.
  - rewrite list_filter_filter_r; [reflexivity |].
    intros q. apply eligible_engine.
Qed.

Lemma eligible_operational self circuit constraints qpu :
  eligible self circuit constraints qpu -> operational circuit qpu.
Proof. intros (Ha & Hq & _). by split. Qed.

Lemma filter_sublist_impl {A} (P Q : A -> Prop)
    `{forall x, Decision (P x)} `{forall x, Decision (Q x)} (l : list A) :
  (forall x, P x -> Q x) -> filter P l `sublist_of` filter Q l.
Proof.
  intros HPQ. induction l as [|x l IH]; [constructor |].
  rewrite !filter_cons. destruct (decide (P x)) as [HP|HP].
  - rewrite decide_True by auto. by constructor.
  - destruct (decide (Q x)); [by constructor | exact IH].
Qed.

(** X6: a resource that is unavailable or has too few qubits is never
    matched, whatever the constraints; without constraints exactly the
    others are; and further constraints can only remove resources, never
    add or reorder them. *)
Theorem matching_phase_shrinks self circuit constraints more :
  matching_phase self circuit constraints
    `sublist_of` filter (operational circuit) (qpus self) /\
  matching_phase self circuit [] = filter (operational circuit) (qpus self) /\
  matching_phase self circuit (constraints ++ more)
    `sublist_of` matching_phase self circuit constraints.
Proof.
  rewrite !matching_phase_eligible. repeat split.
  - apply filter_sublist_impl. intros q. apply eligible_operational.
  - apply list_filter_iff. intros q. unfold eligible, operational.
    split; [tauto |]. intros [Ha Hq]. repeat split; auto.
  - apply filter_sublist_impl. intros q (Ha & Hq & Hks).
    apply Forall_app in Hks as [Hks _]. by repeat split.
Qed.

(** ** Matching: typical constraints *)

(** X7: a constraint [qubits ge n] with an integer [n] holds exactly when
    the resource has at least [n] qubits, and a constraint
    [max_depth ge "circuit.depth"] exactly when the depth of the workload
    is at most the maximum depth of the resource: the string is resolved
    on the workload. *)
Theorem Constraint_evaluate_thresholds n qpu circuit engine :
  Constraint.evaluate (plain_constraint QPU "qubits" GE (VInt n)) qpu circuit engine
  = Ok (n <=? QPUResource.qubits qpu)%Z /\
  Constraint.evaluate (plain_constraint QPU "max_depth" GE (VStr "circuit.depth"))
    qpu circuit engine
  = Ok (QuantumCircuit.depth circuit <=? QPUResource.max_depth qpu)%Z.
Proof. split; reflexivity. Qed.

Lemma Constraint_evaluate_fidelity x qpu circuit self :
  Constraint.evaluate (plain_constraint COMPUTED "fidelity" GE (VFloat x))
    qpu circuit (Some self)
  = Ok (bool_decide (x <= _calculate_fidelity qpu circuit)%R).
Proof. reflexivity. Qed.

(** X8: with the one constraint [computed fidelity ge x] the matching
    phase returns, in pool order, exactly the available resources with
    enough qubits whose fidelity on the workload is at least [x]. *)
Theorem matching_phase_fidelity_threshold self circuit x :
  matching_phase self circuit [plain_constraint COMPUTED "fidelity" GE (VFloat x)]
  = filter (faithful_enough circuit x) (qpus self).
Proof.
  rewrite matching_phase_eligible. apply list_filter_iff. intros q.
  unfold eligible, faithful_enough, operational.
  rewrite Forall_singleton, Constraint_evaluate_fidelity.
  split.
  - intros (Ha & Hq & Hf). injection Hf as Hf. apply bool_decide_eq_true in Hf. tauto.
  - intros [[Ha Hq] Hf]. repeat split; try assumption.
    by rewrite bool_decide_eq_true_2.
Qed.

(** ** Selection and ranking together *)

Lemma sort_insert_least {A} (key : A -> R) x l :
  Forall (fun y => key x <= key y)%R l -> sort_insert key x l = x :: l.
Proof.
  intros Hl. destruct l as [|y l]; [reflexivity |].
  cbn [sort_insert]. apply Forall_cons in Hl as [Hy _].
  rewrite bool_decide_eq_false_2 by lra. reflexivity.
Qed.

(** The first of the minimal elements comes out of the sort in front. *)
Lemma py_sort_first_minimum {A} (key : A -> R) l1 b l2 :
  Forall (fun y => key b < key y)%R l1 ->
  Forall (fun y => key b <= key y)%R l2 ->
  py_sort key (l1 ++ b :: l2) = b :: py_sort key (l1 ++ l2).
Proof.
  intros H1 H2. induction l1 as [|x l1 IH]; cbn [app py_sort foldr].
  - apply sort_insert_least. fold (py_sort key l2). by rewrite py_sort_perm.
  - apply Forall_cons in H1 as [Hx H1].
    fold (py_sort key (l1 ++ b :: l2)). rewrite (IH H1).
    cbn [sort_insert]. rewrite bool_decide_eq_true_2 by exact Hx. reflexivity.
Qed.

(** X9: the ranked list starts with the resource the optimization phase
    selects, carrying its figure of merit. *)
Theorem rank_qpus_head_is_selected self feasible_qpus circuit weights :
  feasible_qpus <> [] ->
  exists best,
    optimization_phase self feasible_qpus circuit weights = Ok (Some best) /\
    head (rank_qpus feasible_qpus circuit weights)
    = Some (ranked_entry best (_calculate_figure_of_merit best circuit weights)).
Proof.
  destruct feasible_qpus as [|first rest]; [congruence |]. intros _.
  destruct (optimization_scan circuit weights rest [] first [])
    as (best & l1 & l2 & Hbest & Hsplit & H1 & H2); [constructor | constructor |].
  exists best. split.
  - unfold optimization_phase. f_equal. exact Hbest.
  - unfold rank_qpus. rewrite ranking_loop_map. cbn [app] in *. rewrite Hsplit.
    rewrite map_app. cbn [map].
    rewrite py_sort_first_minimum; [reflexivity | |].
    + apply Forall_map. eapply Forall_impl; [exact H1 |]. intros q Hq. exact Hq.
    + apply Forall_map. eapply Forall_impl; [exact H2 |]. intros q Hq. exact Hq.
Qed.

Lemma rank_qpus_head_witness :
  exists best,
    optimization_phase example_engine (qpus example_engine)
      measure_only_circuit default_weights = Ok (Some best) /\
    head (rank_qpus (qpus example_engine) measure_only_circuit default_weights)
    = Some (ranked_entry best
              (_calculate_figure_of_merit best measure_only_circuit default_weights)).
Proof.
  apply (rank_qpus_head_is_selected example_engine (qpus example_engine)).
  discriminate.
Defined.

(** ** The bind endpoint *)

Lemma optimization_phase_some self first rest circuit weights :
  exists best,
    optimization_phase self (first :: rest) circuit weights = Ok (Some best) /\
    best ∈ first :: rest.
Proof.
  destruct (optimization_scan circuit weights rest [] first [])
    as (best & l1 & l2 & Hbest & Hsplit & _); [constructor | constructor |].
  exists best. split.
  - unfold optimization_phase. f_equal. exact Hbest.
  - cbn [app] in Hsplit. rewrite Hsplit. apply elem_of_app. right. left.
Qed.

(** The weights [bind_qpus] builds from the request. *)
Lemma bind_body_weights qubind circuit constraints request_figures_of_merit request_ranking e :
  OptimizationWeights.new
    (get_default request_figures_of_merit "cost_weight" (33 / 100))
    (get_default request_figures_of_merit "error_weight" (33 / 100))
    (get_default request_figures_of_merit "workload_weight" (34 / 100)) = Raise e ->
  bind_body qubind circuit constraints request_figures_of_merit request_ranking = Raise e.
Proof. intros Hweights. unfold bind_body. by rewrite Hweights. Qed.

Lemma bind_body_empty qubind circuit constraints request_figures_of_merit request_ranking w :
  OptimizationWeights.new
    (get_default request_figures_of_merit "cost_weight" (33 / 100))
    (get_default request_figures_of_merit "error_weight" (33 / 100))
    (get_default request_figures_of_merit "workload_weight" (34 / 100)) = Ok w ->
  matching_phase qubind circuit constraints = [] ->
  bind_body qubind circuit constraints request_figures_of_merit request_ranking
  = Raise (HTTPException 404).
Proof. intros Hweights Hmatch. unfold bind_body. by rewrite Hweights, Hmatch. Qed.

Lemma rank_qpus_length feasible_qpus circuit weights :
  length (rank_qpus feasible_qpus circuit weights) = length feasible_qpus.
Proof.
  unfold rank_qpus. rewrite ranking_loop_map, py_sort_perm. cbn [app].
  by rewrite length_map.
Qed.

Lemma bind_body_feasible qubind circuit constraints request_figures_of_merit request_ranking w :
  OptimizationWeights.new
    (get_default request_figures_of_merit "cost_weight" (33 / 100))
    (get_default request_figures_of_merit "error_weight" (33 / 100))
    (get_default request_figures_of_merit "workload_weight" (34 / 100)) = Ok w ->
  matching_phase qubind circuit constraints <> [] ->
  exists result,
    bind_body qubind circuit constraints request_figures_of_merit request_ranking = Ok result /\
    selected_qpu result ∈ matching_phase qubind circuit constraints /\
    (request_figures_of_merit <> ∅ ->
     optimization_phase qubind (matching_phase qubind circuit constraints) circuit w
     = Ok (Some (selected_qpu result)) /\
     result_figure_of_merit result
     = _calculate_figure_of_merit (selected_qpu result) circuit w) /\
    (request_figures_of_merit = ∅ ->
     head (matching_phase qubind circuit constraints) = Some (selected_qpu result) /\
     result_figure_of_merit result = 0%R) /\
    (request_ranking = false -> ranked_qpus result = None) /\
    (request_ranking = true ->
     exists ranked, ranked_qpus result = Some ranked /\
                    length ranked = length (matching_phase qubind circuit constraints)).
Proof.
  intros Hweights Hmatch. unfold bind_body. rewrite Hweights. cbn [mbind result_bind].
  destruct (matching_phase qubind circuit constraints) as [|first rest]; [congruence |].
  destruct (decide (request_figures_of_merit = ∅)) as [Hempty|Hfoms].
  - destruct request_ranking; eexists; (split; [reflexivity |]);
      cbn [selected_qpu result_figure_of_merit ranked_qpus head].
    + split; [left |]. split; [congruence |]. split; [auto |].
      split; [discriminate |]. intros _. eexists. split; [reflexivity |].
      assert (forall l acc,
                 length (foldl (fun ranked_qpus qpu => ranked_qpus ++ [ranked_entry qpu 0])
                           acc l) = length acc + length l) as Hlen.
      { induction l as [|q l IH]; intros acc; cbn [foldl length]; [lia |].
        rewrite IH, length_app. cbn. lia. }
      rewrite Hlen. reflexivity.
    + split; [left |]. split; [congruence |]. split; [auto |].
      split; [reflexivity | discriminate].
  - destruct (optimization_phase_some qubind first rest circuit w) as (best & Hbest & Hin).
    rewrite Hbest. cbn [mbind result_bind].
    destruct request_ranking; eexists; (split; [reflexivity |]);
      cbn [selected_qpu result_figure_of_merit ranked_qpus head].
    + split; [exact Hin |]. split; [auto |]. split; [congruence |].
      split; [discriminate |]. intros _. eexists. split; [reflexivity |].
      apply rank_qpus_length.
    + split; [exact Hin |]. split; [auto |]. split; [congruence |].
      split; [reflexivity | discriminate].
Qed.



(** X11: what [bind_qpus] answers.  The selected resource is one of the
    matched ones, so it is available, has enough qubits and satisfies every
    constraint.  With figures of merit in the request it is the choice of
    the optimization phase and comes with its figure of merit; with an
    empty mapping it is the first matched resource with a figure of merit
    of 0.  The ranked list is present exactly when it is requested and has
    one entry per matched resource. *)
Theorem bind_qpus_selection qubind circuit constraints request_figures_of_merit
    request_ranking w result :
  OptimizationWeights.new
    (get_default request_figures_of_merit "cost_weight" (33 / 100))
    (get_default request_figures_of_merit "error_weight" (33 / 100))
    (get_default request_figures_of_merit "workload_weight" (34 / 100)) = Ok w ->
  bind_qpus qubind circuit constraints request_figures_of_merit request_ranking = Ok result ->
  selected_qpu result ∈ qpus qubind /\
  eligible qubind circuit constraints (selected_qpu result) /\
  (request_figures_of_merit <> ∅ ->
   optimization_phase qubind (matching_phase qubind circuit constraints) circuit w
   = Ok (Some (selected_qpu result)) /\
   result_figure_of_merit result
   = _calculate_figure_of_merit (selected_qpu result) circuit w) /\
  (request_figures_of_merit = ∅ ->
   head (matching_phase qubind circuit constraints) = Some (selected_qpu result) /\
   result_figure_of_merit result = 0%R) /\
  (request_ranking = false -> ranked_qpus result = None) /\
  (request_ranking = true ->
   exists ranked, ranked_qpus result = Some ranked /\
                  length ranked = length (matching_phase qubind circuit constraints)).
Proof.
  intros Hweights Hanswer. unfold bind_qpus in Hanswer.
  destruct (decide (matching_phase qubind circuit constraints = [])) as [Hmatch|Hmatch].
  { rewrite (bind_body_empty _ _ _ _ _ w Hweights Hmatch) in Hanswer. discriminate. }
  destruct (bind_body_feasible qubind circuit constraints request_figures_of_merit
              request_ranking w Hweights Hmatch)
    as (result' & Hbody & Hin & Hrest).
  rewrite Hbody in Hanswer. cbn in Hanswer. injection Hanswer as <-.
  rewrite matching_phase_eligible in Hin. apply list_elem_of_filter in Hin as [Hel Hin].
  split; [exact Hin |]. split; [exact Hel | exact Hrest].
Qed.

Lemma bind_qpus_selection_witness :
  exists result,
    bind_qpus example_engine measure_only_circuit [] ∅ false = Ok result /\
    eligible example_engine measure_only_circuit [] (selected_qpu result).
Proof.
  assert (OptimizationWeights.new
            (get_default ∅ "cost_weight" (33 / 100))
            (get_default ∅ "error_weight" (33 / 100))
            (get_default ∅ "workload_weight" (34 / 100)) = Ok default_weights) as Hweights.
  { unfold get_default. rewrite !lookup_empty. rewrite new_in_range by lra.
    rewrite (proj2 (isclose_one _)); [reflexivity | lra]. }
  assert (bind_qpus example_engine measure_only_circuit [] ∅ false
          = Ok {| selected_qpu := noisy_readout_qpu; result_figure_of_merit := 0;
                  ranked_qpus := None |}) as Hanswer.
  { unfold bind_qpus, bind_body. rewrite Hweights. reflexivity. }
  eexists. split; [exact Hanswer |].
  exact (proj1 (proj2 (bind_qpus_selection example_engine measure_only_circuit [] ∅ false
                         default_weights _ Hweights Hanswer))).
Defined.

(** ** The property resolver *)

(** Only the declared fields resolve. *)
Lemma py_getattr_fields obj name v :
  py_getattr obj name = Some v -> (name, v) ∈ fields obj.
Proof.
  intros Hget. apply list_elem_of_In.
  destruct obj as [q|c|w]; [| | discriminate]; unfold py_getattr in Hget;
    repeat (destruct name as [|[[|] [|] [|] [|] [|] [|] [|] [|]] name];
            try discriminate Hget;
            try (injection Hget as <-; cbn; tauto)).
Qed.

Lemma gate_name_without_space g : has_char " " (GateType.name g) = false.
Proof. by destruct g. Qed.

Lemma dict_value_plain {K A} `{Countable K} (key : K -> pyvalue) (val : A -> pyvalue)
    (m : gmap K A) :
  (forall k, key_without_space (key k)) -> (forall a, not_a_dict (val a)) ->
  plain_value (dict_value key val m).
Proof.
  intros Hkey Hval. unfold dict_value, plain_value.
  apply Forall_fmap, Forall_forall. intros kv _. split; [apply Hkey | apply Hval].
Qed.

Lemma fields_plain obj name v :
  (name, v) ∈ fields obj -> has_char " " name = false /\ plain_value v.
Proof.
  intros Hin. destruct obj as [q|c|w]; cbn [fields qpu_fields circuit_fields] in Hin.
  - repeat (apply elem_of_cons in Hin as [Heq|Hin];
            [injection Heq as -> ->; split; [reflexivity |];
             try exact I;
             try (apply dict_value_plain; intros; try exact I; apply gate_name_without_space)
            |]).
    by apply elem_of_nil in Hin.
  - repeat (apply elem_of_cons in Hin as [Heq|Hin];
            [injection Heq as -> ->; split; [reflexivity |];
             try exact I;
             try (apply dict_value_plain; intros; try exact I; apply gate_name_without_space)
            |]).
    by apply elem_of_nil in Hin.
  - by apply elem_of_nil in Hin.
Qed.

Lemma py_eq_str_inv part k : py_eq (VStr part) k = true -> k = VStr part.
Proof.
  destruct k; cbn; try discriminate.
  intros Heq. apply String.eqb_eq in Heq. by subst.
Qed.

Lemma dict_item_plain current part v :
  plain_object current -> dict_item current part = Some v ->
  has_char " " part = false /\ plain_value v.
Proof.
  intros Hplain Hitem. destruct current as [| |[| | | | | | |d]]; try discriminate.
  cbn [dict_item] in Hitem. cbn in Hplain.
  destruct (List.find _ d) as [[k v']|] eqn:Hfind; [| discriminate].
  injection Hitem as ->.
  apply find_some in Hfind as [Hin Heq]. cbn in Heq. apply py_eq_str_inv in Heq as ->.
  rewrite Forall_forall in Hplain. apply list_elem_of_In in Hin.
  destruct (Hplain _ Hin) as [Hkey Hval]. cbn in Hkey, Hval. split; [exact Hkey |].
  destruct v; try exact I. contradiction.
Qed.

(** A part with a space in it is neither a field nor a key. *)
Lemma walk_space property_path parts :
  forall current,
    plain_object current ->
    Exists (fun part => has_char " " part = true) parts ->
    walk property_path current parts = Raise (not_found property_path).
Proof.
  induction parts as [|part rest IH]; intros current Hplain Hspace.
  - by apply Exists_nil in Hspace.
  - cbn [walk]. destruct (py_getattr current part) as [v|] eqn:Hget.
    + apply py_getattr_fields, fields_plain in Hget as [Hpart Hv].
      apply Exists_cons in Hspace as [Hhead|Hrest]; [congruence |].
      by apply IH.
    + destruct (dict_item current part) as [v|] eqn:Hitem; [| reflexivity].
      apply (dict_item_plain _ _ _ Hplain) in Hitem as [Hpart Hv].
      apply Exists_cons in Hspace as [Hhead|Hrest]; [congruence |].
      by apply IH.
Qed.

Lemma prefix_empty s : String.prefix "" s = true.
Proof. by destruct s. Qed.

(** Splitting on a dot keeps every other character in some part. *)
Lemma split_dot_keeps c s :
  c <> "."%char -> has_char c s = true ->
  Exists (fun part => has_char c part = true) (py_split s ".").
Proof.
  intros Hc. unfold py_split. induction s as [|a s IH]; intros Hin; [discriminate |].
  cbn [split_from String.prefix String.length Nat.sub]. cbn [has_char] in Hin.
  destruct (ascii_dec "." a) as [<-|Hdot].
  - rewrite prefix_empty. apply Exists_cons_tl, IH.
    destruct (Ascii.eqb_spec "." c); [congruence | exact Hin].
  - destruct (Ascii.eqb_spec a c) as [->|Hne].
    + destruct (split_from "." 0 s); apply Exists_cons_hd; cbn [has_char];
        by rewrite Ascii.eqb_refl.
    + specialize (IH Hin). destruct (split_from "." 0 s) as [|p ps].
      * by apply Exists_nil in IH.
      * apply Exists_cons in IH as [Hp|Hps].
        -- apply Exists_cons_hd. cbn [has_char]. rewrite Hp. by rewrite orb_true_r.
        -- by apply Exists_cons_tl.
Qed.

Lemma get_nested_property_space obj property_path :
  plain_object obj -> has_char " " property_path = true ->
  get_nested_property obj property_path = Raise (not_found property_path).
Proof.
  intros Hplain Hspace. unfold get_nested_property.
  destruct (py_in "." property_path).
  - rewrite walk_space; [reflexivity | exact Hplain |].
    apply split_dot_keeps; [discriminate | exact Hspace].
  - destruct (py_getattr obj property_path) as [v|] eqn:Hget; [| reflexivity].
    apply py_getattr_fields, fields_plain in Hget as [Hpath _]. congruence.
Qed.

Lemma startswith_slice expression p :
  startswith expression p = true ->
  expression = p +:+ slice_from (String.length p) expression.
Proof.
  unfold startswith. revert expression.
  induction p as [|a p IH]; intros expression Hp; [reflexivity |].
  apply prefix_cons in Hp as (rest & -> & Hp).
  cbn [String.length slice_from]. change (String a p +:+ ?s) with (String a (p +:+ s)).
  f_equal. by apply IH.
Qed.

Lemma has_char_append c p s : has_char c (p +:+ s) = has_char c p || has_char c s.
Proof.
  induction p as [|a p IH]; [reflexivity |].
  change (String a p +:+ s) with (String a (p +:+ s)). cbn [has_char].
  by rewrite IH, orb_assoc.
Qed.

Lemma slice_keeps_space expression p :
  startswith expression p = true -> has_char " " p = false ->
  has_char " " expression = true ->
  has_char " " (slice_from (String.length p) expression) = true.
Proof.
  intros Hp Hno Hspace. rewrite (startswith_slice _ _ Hp), has_char_append, Hno in Hspace.
  exact Hspace.
Qed.

(** Shared form: with both a resource and a workload given. *)
Lemma property_prefix_space_raises expression qpu circuit engine :
  startswith expression "qpu." = true \/ startswith expression "circuit." = true ->
  has_char " " expression = true ->
  exists e, evaluate_expression expression (Some qpu) (Some circuit) engine = Raise e.
Proof.
  intros Hstart Hspace. rewrite evaluate_expression_unfold. unfold evaluate_body.
  destruct Hstart as [Hstart|Hstart].
  - rewrite Hstart. eexists. apply get_nested_property_space; [exact I |].
    by apply (slice_keeps_space expression "qpu.").
  - assert (startswith expression "qpu." = false) as ->.
    { rewrite (startswith_slice _ _ Hstart). reflexivity. }
    rewrite Hstart. eexists. apply get_nested_property_space; [exact I |].
    by apply (slice_keeps_space expression "circuit.").
Qed.

(** X12: an expression that starts with [qpu.] (with a resource given) or
    with [circuit.] (with a workload given) is resolved as one property
    path, operators and all.  If it has a space in it, as any expression
    with an operator token has, the resolution fails with [ValueError]:
    [qpu.max_depth * 0.8] is not a product when a resource is given. *)
Theorem property_prefix_takes_all expression qpu circuit :
  has_char " " expression = true ->
  (startswith expression "qpu." = true ->
   forall circuit' engine,
     evaluate_expression expression (Some qpu) circuit' engine
     = Raise (not_found (slice_from 4 expression))) /\
  (startswith expression "circuit." = true ->
   forall qpu' engine,
     evaluate_expression expression qpu' (Some circuit) engine
     = Raise (not_found (slice_from 8 expression))).
Proof.
  intros Hspace. split; intros Hstart.
  - intros circuit' engine. rewrite evaluate_expression_unfold. unfold evaluate_body.
    rewrite Hstart. apply get_nested_property_space; [exact I |].
    by apply (slice_keeps_space expression "qpu.").
  - intros qpu' engine. rewrite evaluate_expression_unfold. unfold evaluate_body.
    assert (startswith expression "qpu." = false) as ->.
    { rewrite (startswith_slice _ _ Hstart). reflexivity. }
    rewrite Hstart. apply get_nested_property_space; [exact I |].
    by apply (slice_keeps_space expression "circuit.").
Qed.

Lemma property_prefix_takes_all_witness :
  evaluate_expression "qpu.max_depth * 0.8" (Some idle_qpu) None None
  = Raise (not_found "max_depth * 0.8").
Proof.
  apply (proj1 (property_prefix_takes_all "qpu.max_depth * 0.8" idle_qpu measure_only_circuit
                  eq_refl) eq_refl).
Defined.

Lemma filter_none {A} (P : A -> Prop) `{forall x, Decision (P x)} (l : list A) :
  (forall x, ~ P x) -> filter P l = [].
Proof.
  intros HP. induction l as [|x l IH]; [reflexivity |].
  rewrite filter_cons, decide_False by apply HP. exact IH.
Qed.

(** X13: a constraint whose comparison value starts with [qpu.] or
    [circuit.] and has a space in it, as [qpu.max_depth * 0.8] has, raises
    for every resource, so with it in the list the matching phase returns
    no resource at all. *)
Theorem matching_phase_prefixed_expression self circuit constraints constraint expression :
  constraint ∈ constraints ->
  Constraint.custom_fn constraint = None ->
  Constraint.value constraint = VStr expression ->
  startswith expression "qpu." = true \/ startswith expression "circuit." = true ->
  has_char " " expression = true ->
  (forall qpu, exists e, Constraint.evaluate constraint qpu circuit (Some self) = Raise e) /\
  matching_phase self circuit constraints = [].
Proof.
  intros Hin Hfn Hvalue Hstart Hspace.
  assert (forall qpu, exists e,
             Constraint.evaluate constraint qpu circuit (Some self) = Raise e) as Hraise.
  { intros qpu. unfold Constraint.evaluate, Constraint.comparison_value.
    rewrite Hfn, Hvalue.
    destruct (Constraint.property_value constraint qpu circuit (Some self)) as [pv|e];
      [| by exists e].
    cbn [mbind result_bind].
    assert (is_expression (VStr expression) = true) as ->.
    { unfold is_expression. destruct Hstart as [Hq|Hc].
      - by rewrite (py_in_prefix _ _ Hq).
      - rewrite (py_in_prefix _ _ Hc). by rewrite orb_true_r. }
    destruct (property_prefix_space_raises expression qpu circuit (Some self) Hstart Hspace)
      as [e ->].
    by exists e. }
  split; [exact Hraise |].
  rewrite matching_phase_eligible. apply filter_none.
  intros qpu (_ & _ & Hall). rewrite Forall_forall in Hall.
  specialize (Hall constraint Hin). destruct (Hraise qpu) as [e He]. congruence.
Qed.

Lemma matching_phase_prefixed_expression_witness :
  matching_phase example_engine measure_only_circuit
    [plain_constraint QPU "max_depth" GE (VStr "circuit.depth * 2")] = [].
Proof.
  refine (proj2 (matching_phase_prefixed_expression example_engine measure_only_circuit
                   _ (plain_constraint QPU "max_depth" GE (VStr "circuit.depth * 2"))
                   "circuit.depth * 2" _ eq_refl eq_refl _ eq_refl)).
  - apply list_elem_of_singleton. reflexivity.
  - by right.
Defined.

(** ** The property resolver: tables *)

(** Looking a key up in the items of a mapping is the lookup of the
    mapping, when the name picks out one key. *)
Lemma find_items {K A} `{Countable K} (key : K -> pyvalue) (val : A -> pyvalue)
    (part : string) (k0 : K) (l : list (K * A)) :
  (forall k, py_eq (VStr part) (key k) = bool_decide (k = k0)) ->
  snd <$> List.find (fun kv => py_eq (VStr part) kv.1)
            ((fun kv => (key kv.1, val kv.2)) <$> l)
  = val <$> (list_to_map l : gmap K A) !! k0.
Proof.
  intros Hkey. induction l as [|[k a] l IH].
  { cbn. by rewrite lookup_empty. }
  cbn [fmap list_fmap List.find fst snd list_to_map foldr]. rewrite Hkey.
  case_bool_decide as Hk.
  - subst. by rewrite lookup_insert_eq.
  - rewrite lookup_insert_ne by exact Hk. exact IH.
Qed.

Lemma dict_item_lookup {K A} `{Countable K} (key : K -> pyvalue) (val : A -> pyvalue)
    (part : string) (k0 : K) (m : gmap K A) :
  (forall k, py_eq (VStr part) (key k) = bool_decide (k = k0)) ->
  dict_item (ObjValue (dict_value key val m)) part = val <$> m !! k0.
Proof.
  intros Hkey. unfold dict_item, dict_value.
  rewrite (find_items key val part k0 _ Hkey). by rewrite list_to_map_to_list.
Qed.

Lemma dict_item_int_keys {K A} `{Countable K} (key : K -> Z) (val : A -> pyvalue)
    (part : string) (m : gmap K A) :
  dict_item (ObjValue (dict_value (fun k => VInt (key k)) val m)) part = None.
Proof.
  unfold dict_item, dict_value.
  induction (map_to_list m) as [|[k a] l IH]; [reflexivity |]. exact IH.
Qed.

Lemma gate_name_eq g :
  forall k, py_eq (VStr (GateType.name g)) (VStr (GateType.name k)) = bool_decide (k = g).
Proof. intros k. destruct g, k; reflexivity. Qed.

Lemma split_dot_prefix p rest :
  has_char "." p = false ->
  py_split (p +:+ String "." rest) "." = p :: py_split rest ".".
Proof.
  unfold py_split. induction p as [|a p IH]; intros Hp.
  - change ("" +:+ String "." rest) with (String "." rest).
    cbn [split_from String.prefix String.length Nat.sub].
    destruct (ascii_dec "." "."); [| congruence]. by rewrite prefix_empty.
  - change (String a p +:+ ?s) with (String a (p +:+ s)).
    cbn [has_char] in Hp. apply orb_false_elim in Hp as [Ha Hp].
    cbn [split_from String.prefix].
    destruct (ascii_dec "." a) as [<-|_]; [discriminate |].
    by rewrite (IH Hp).
Qed.

Lemma py_in_dot s : py_in "." s = has_char "." s.
Proof.
  induction s as [|a s IH]; [reflexivity |].
  cbn [py_in has_char String.prefix]. rewrite IH.
  destruct (ascii_dec "." a) as [<-|Hne].
  - by rewrite prefix_empty.
  - destruct (Ascii.eqb_spec a "."); [congruence | reflexivity].
Qed.

Lemma all_digits_no_dot s : all_digits s = true -> has_char "." s = false.
Proof.
  induction s as [|a s IH]; [reflexivity |]. cbn [all_digits has_char].
  destruct (digit_of a) eqn:Hd; [| discriminate]. intros Hs. rewrite (IH Hs).
  destruct (Ascii.eqb_spec a ".") as [->|]; [discriminate | reflexivity].
Qed.

(** The dotted path [table.part] for a table that is a field of the
    object, and a part without a dot. *)
Lemma get_nested_property_item obj table part v :
  has_char "." table = false -> has_char "." part = false ->
  py_getattr obj table = Some v ->
  get_nested_property obj (table +:+ String "." part)
  = match dict_item (ObjValue v) part with
    | Some item => Ok item
    | None => Raise (not_found (table +:+ String "." part))
    end.
Proof.
  intros Htable Hpart Hget. unfold get_nested_property.
  rewrite py_in_dot, has_char_append. cbn [has_char]. rewrite Ascii.eqb_refl, orb_true_r.
  rewrite (split_dot_prefix _ _ Htable).
  rewrite (py_in_false_split "." part) by (by rewrite py_in_dot).
  cbn [walk]. rewrite Hget. cbn [py_getattr].
  by destruct (dict_item (ObjValue v) part).
Qed.

(** X14: a gate table is addressed by the name of the gate.  The path
    [gate_fidelities.<GATE>] on a resource gives the fidelity stored for
    that gate and [gate_counts.<GATE>] on a workload its count; a gate
    that is not in the table gives [ValueError]. *)
Theorem get_nested_property_gate qpu circuit g :
  get_nested_property (ObjQPU qpu) ("gate_fidelities." +:+ GateType.name g)
  = match QPUResource.gate_fidelities qpu !! g with
    | Some f => Ok (VFloat f)
    | None => Raise (not_found ("gate_fidelities." +:+ GateType.name g))
    end /\
  get_nested_property (ObjCircuit circuit) ("gate_counts." +:+ GateType.name g)
  = match QuantumCircuit.gate_counts circuit !! g with
    | Some n => Ok (VInt n)
    | None => Raise (not_found ("gate_counts." +:+ GateType.name g))
    end.
Proof.
  split.
  - change ("gate_fidelities." +:+ GateType.name g)
      with ("gate_fidelities" +:+ String "." (GateType.name g)).
    rewrite (get_nested_property_item _ _ _
               (dict_value (fun g => VStr (GateType.name g)) VFloat
                  (QPUResource.gate_fidelities qpu)));
      [| reflexivity | by destruct g | reflexivity].
    rewrite (dict_item_lookup _ _ _ g) by apply gate_name_eq.
    by destruct (QPUResource.gate_fidelities qpu !! g).
  - change ("gate_counts." +:+ GateType.name g)
      with ("gate_counts" +:+ String "." (GateType.name g)).
    rewrite (get_nested_property_item _ _ _
               (dict_value (fun g => VStr (GateType.name g)) VInt
                  (QuantumCircuit.gate_counts circuit)));
      [| reflexivity | by destruct g | reflexivity].
    rewrite (dict_item_lookup _ _ _ g) by apply gate_name_eq.
    by destruct (QuantumCircuit.gate_counts circuit !! g).
Qed.

(** X15: a table keyed by qubit index cannot be addressed by a path.
    The part after the dot is a string and the keys are integers, so
    [readout_fidelities.<digits>] and [measurements.<digits>] raise
    [ValueError] whatever the tables hold. *)
Theorem get_nested_property_qubit_index qpu circuit index :
  all_digits index = true ->
  get_nested_property (ObjQPU qpu) ("readout_fidelities." +:+ index)
  = Raise (not_found ("readout_fidelities." +:+ index)) /\
  get_nested_property (ObjCircuit circuit) ("measurements." +:+ index)
  = Raise (not_found ("measurements." +:+ index)).
Proof.
  intros Hdigits. apply all_digits_no_dot in Hdigits. split.
  - change ("readout_fidelities." +:+ index)
      with ("readout_fidelities" +:+ String "." index).
    rewrite (get_nested_property_item _ _ _
               (dict_value VInt VFloat (QPUResource.readout_fidelities qpu)));
      [| reflexivity | exact Hdigits | reflexivity].
    by rewrite (dict_item_int_keys (fun k => k)).
  - change ("measurements." +:+ index) with ("measurements" +:+ String "." index).
    rewrite (get_nested_property_item _ _ _
               (dict_value VInt VInt (QuantumCircuit.measurements circuit)));
      [| reflexivity | exact Hdigits | reflexivity].
    by rewrite (dict_item_int_keys (fun k => k)).
Qed.

Lemma get_nested_property_qubit_index_witness :
  get_nested_property (ObjQPU noisy_readout_qpu) "readout_fidelities.0"
  = Raise (not_found "readout_fidelities.0").
Proof.
  apply (proj1 (get_nested_property_qubit_index noisy_readout_qpu measure_only_circuit
                  "0" eq_refl)).
Defined.

(** ** Building constraints *)

Lemma enum_call_value {E} (members : list E) (value_of : E -> string) enum_name value member :
  enum_call members value_of enum_name value = Ok member ->
  value_of member = value /\ In member members.
Proof.
  unfold enum_call. destruct (List.find _ members) as [m|] eqn:Hfind; [| discriminate].
  intros [= <-]. apply find_some in Hfind as [Hin Heq].
  apply String.eqb_eq in Heq. by split.
Qed.

Lemma enum_call_raises {E} (members : list E) (value_of : E -> string) enum_name value :
  (forall member, In member members -> value_of member <> value) ->
  enum_call members value_of enum_name value
  = Raise (ValueError ("'" +:+ value +:+ "' is not a valid " +:+ enum_name)).
Proof.
  intros Hnone. unfold enum_call.
  destruct (List.find _ members) as [m|] eqn:Hfind; [| reflexivity].
  apply find_some in Hfind as [Hin Heq]. apply String.eqb_eq in Heq.
  by destruct (Hnone m Hin).
Qed.

(** X16: [create_constraint] and the two enumerations round-trip.  The
    value strings of a target and of an operator give back a constraint
    with that target and operator; whenever a constraint is built its
    target and operator have the strings that were passed as values and it
    has no custom predicate; a string that is no target value raises
    [ValueError], and so does one that is no operator value. *)
Theorem create_constraint_round_trip name description property value parameters :
  (forall target operator,
     create_constraint name description (ConstraintTarget_value target) property
       (ConstraintOperator_value operator) value parameters
     = Ok {| Constraint.name := name; Constraint.description := description;
             Constraint.target := target; Constraint.property := property;
             Constraint.operator := operator; Constraint.value := value;
             Constraint.custom_fn := None;
             Constraint.parameters := default ∅ parameters |}) /\
  (forall target operator constraint,
     create_constraint name description target property operator value parameters
     = Ok constraint ->
     ConstraintTarget_value (Constraint.target constraint) = target /\
     ConstraintOperator_value (Constraint.operator constraint) = operator /\
     Constraint.custom_fn constraint = None) /\
  (forall target operator,
     (forall t, ConstraintTarget_value t <> target) ->
     create_constraint name description target property operator value parameters
     = Raise (ValueError ("'" +:+ target +:+ "' is not a valid ConstraintTarget"))) /\
  (forall target operator,
     (forall o, ConstraintOperator_value o <> operator) ->
     forall constraint,
       create_constraint name description (ConstraintTarget_value target) property operator
         value parameters <> Ok constraint).
Proof.
  split; [| split; [| split]].
  - intros target operator. by destruct target, operator.
  - intros target operator constraint Hcreate. unfold create_constraint in Hcreate.
    destruct (enum_call ConstraintTarget_members _ _ target) as [t|] eqn:Ht; [| discriminate].
    destruct (enum_call ConstraintOperator_members _ _ operator) as [o|] eqn:Ho;
      [| discriminate].
    injection Hcreate as <-. cbn.
    apply enum_call_value in Ht as [Ht _]. apply enum_call_value in Ho as [Ho _].
    by repeat split.
  - intros target operator Hnone. unfold create_constraint.
    rewrite (enum_call_raises ConstraintTarget_members); [reflexivity |].
    intros t _. apply Hnone.
  - intros target operator Hnone constraint. unfold create_constraint.
    destruct (enum_call ConstraintTarget_members _ _ _) as [t|]; [| discriminate].
    rewrite (enum_call_raises ConstraintOperator_members); [discriminate |].
    intros o _. apply Hnone.
Qed.

Lemma create_constraint_witness :
  create_constraint "n" "d" "resource" "qubits" "ge" (VInt 5) None
  = Raise (ValueError "'resource' is not a valid ConstraintTarget").
Proof.
  apply (proj1 (proj2 (proj2 (create_constraint_round_trip "n" "d" "qubits" (VInt 5) None)))
           "resource" "ge").
  intros []; discriminate.
Defined.

(** ** Weights out of range *)

(** X17: a weight outside [[0,1]] is rejected by the field validation,
    whatever the three weights sum to, and the field validation rejects
    nothing else. *)
Theorem OptimizationWeights_new_out_of_range c e w :
  OptimizationWeights.new c e w = Raise ValidationError <->
  ~ ((0 <= c <= 1) /\ (0 <= e <= 1) /\ (0 <= w <= 1))%R.
Proof.
  unfold OptimizationWeights.new, OptimizationWeights.field_ok,
    OptimizationWeights.model_post_init.
  repeat case_bool_decide; cbn [andb negb]; cbn;
    try (split; [intros _; lra | reflexivity]).
  destruct (isclose (c + e + w) 1 (1 / 1000000)); cbn; split; try discriminate; lra.
Qed.

(** ** One operator *)

(** X18: one operator.  When no property branch answers, no
    higher-priority operator token is in the expression and [split] cuts
    it at the token of [op] into two parts, the value is that of the two
    parts combined with [op]: the left part is evaluated, the right part
    is read as a float literal or else evaluated. *)
Theorem evaluate_expression_single_operator op expression part0 part1 qpu circuit engine :
  property_branch expression qpu circuit engine = false ->
  Forall (fun earlier => py_in (token earlier) expression = false) (tried_before op) ->
  py_split expression (token op) = [part0; part1] ->
  evaluate_expression expression qpu circuit engine
  = combine op part0 part1 qpu circuit engine.
Proof.
  intros Hbranch Hearlier Hsplit.
  rewrite evaluate_expression_unfold, evaluate_body_arithmetic by exact Hbranch.
  unfold arithmetic, combine.
  destruct op; cbn [tried_before] in Hearlier;
    repeat (let Habsent := fresh "Habsent" in
            apply Forall_cons in Hearlier as [Habsent Hearlier];
            rewrite (binary_block_absent _ _ _ _ Habsent));
    rewrite (binary_block_split _ _ _ _ _ _ Hsplit); reflexivity.
Qed.

Lemma evaluate_expression_single_operator_witness :
  evaluate_expression "2 - circuit.depth" None (Some measure_only_circuit) None
  = combine Sub "2" "circuit.depth" None (Some measure_only_circuit) None.
Proof.
  apply (evaluate_expression_single_operator Sub "2 - circuit.depth" "2" "circuit.depth").
  - reflexivity.
  - repeat constructor.
  - reflexivity.
Defined.

(** What a product with a property on the right comes to. *)
Lemma scaled_depth qpu circuit engine :
  evaluate_expression "2 * circuit.depth" qpu (Some circuit) engine
  = Ok (VInt (2 * QuantumCircuit.depth circuit)).
Proof. destruct qpu; reflexivity. Qed.

(** ** The pool of the service *)



Ltac pool_member H :=
  unfold QPUS, create_mock_qpus in H;
  repeat (apply elem_of_cons in H as [->|H]); [..| by apply elem_of_nil in H].







Lemma sum_nonnegative (l : list Z) acc :
  Forall (fun n => 0 <= n)%Z l -> (0 <= acc)%Z -> (0 <= foldl Z.add acc l)%Z.
Proof.
  intros Hl. revert acc. induction Hl as [|n l Hn Hl IH]; intros acc Hacc; cbn [foldl].
  - exact Hacc.
  - apply IH. lia.
Qed.

Lemma sum_values_nonnegative counts :
  map_Forall (fun _ n => 0 <= n)%Z counts -> (0 <= sum_values counts)%Z.
Proof.
  intros Hcounts. unfold sum_values. apply sum_nonnegative; [| lia].
  apply Forall_fmap, Forall_forall. intros [k n] Hkn.
  apply elem_of_map_to_list in Hkn. exact (Hcounts k n Hkn).
Qed.

(** X20: the pricing functions of the pool never give a negative cost
    for a workload whose shot count and gate counts are not negative. *)
Theorem QPUS_cost_nonnegative qpu circuit :
  qpu ∈ QPUS ->
  (0 <= QuantumCircuit.shots circuit)%Z ->
  map_Forall (fun _ n => 0 <= n)%Z (QuantumCircuit.gate_counts circuit) ->
  (0 <= QPUResource.cost qpu circuit)%R.
Proof.
  intros Hin Hshots Hcounts.
  apply sum_values_nonnegative in Hcounts. apply IZR_le in Hshots, Hcounts.
  assert (0 <= IZR (Z.of_nat (size (QuantumCircuit.qubits_used circuit))))%R as Hsize
    by (apply IZR_le; lia).
  pool_member Hin; cbn [QPUResource.cost create_premium_qpu create_standard_qpu
                          create_budget_qpu create_capacity_qpu create_available_qpu
                          create_inactive_qpu];
    unfold gate_pricing, qubit_pricing;
    set (s := IZR (QuantumCircuit.shots circuit)) in *;
    set (g := IZR (sum_values (QuantumCircuit.gate_counts circuit))) in *;
    set (u := IZR (Z.of_nat (size (QuantumCircuit.qubits_used circuit)))) in *;
    nra.
Qed.

Lemma QPUS_cost_nonnegative_witness :
  (0 <= QPUResource.cost create_capacity_qpu measure_only_circuit)%R.
Proof.
  apply QPUS_cost_nonnegative.
  - unfold QPUS, create_mock_qpus. rewrite !elem_of_cons. right. right. right. by left.
  - cbn. lia.
  - cbn. apply map_Forall_empty.
Defined.

(** X21: on the pool of the service the matching phase only ever
    returns the five resources that are available, never the inactive
    one, and only for workloads of at most 127 qubits; a workload that
    needs more makes [bind_qpus] raise an HTTP error with status 400,
    whatever the constraints and the weights. *)
Theorem QPUS_matching circuit constraints :
  (forall qpu,
     qpu ∈ matching_phase qubind circuit constraints ->
     qpu ∈ [create_premium_qpu; create_standard_qpu; create_budget_qpu;
            create_capacity_qpu; create_available_qpu] /\
     (QuantumCircuit.qubits_required circuit <= 127)%Z) /\
  ((127 < QuantumCircuit.qubits_required circuit)%Z ->
   forall request_figures_of_merit request_ranking,
     bind_qpus qubind circuit constraints request_figures_of_merit request_ranking
     = Raise (HTTPException 400)).
Proof.
  assert (forall qpu,
             qpu ∈ matching_phase qubind circuit constraints ->
             qpu ∈ [create_premium_qpu; create_standard_qpu; create_budget_qpu;
                    create_capacity_qpu; create_available_qpu] /\
             (QuantumCircuit.qubits_required circuit <= 127)%Z) as Hmatched.
  { intros qpu Hin. rewrite matching_phase_eligible in Hin.
    apply list_elem_of_filter in Hin as [(Havailable & Hqubits & _) Hin].
    cbn [qpus qubind] in Hin. pool_member Hin; cbn in Havailable, Hqubits;
      try discriminate; (split; [| lia]); set_solver. }
  split; [exact Hmatched |].
  intros Hbig request_figures_of_merit request_ranking.
  assert (matching_phase qubind circuit constraints = []) as Hnone.
  { destruct (matching_phase qubind circuit constraints) as [|q l] eqn:Hm; [reflexivity |].
    destruct (Hmatched q) as [_ Hle]; [left | lia]. }
  unfold bind_qpus.
  destruct (OptimizationWeights.new
              (get_default request_figures_of_merit "cost_weight" (33 / 100))
              (get_default request_figures_of_merit "error_weight" (33 / 100))
              (get_default request_figures_of_merit "workload_weight" (34 / 100)))
    as [w|e] eqn:Hweights.
  - by rewrite (bind_body_empty _ _ _ _ _ w Hweights Hnone).
  - by rewrite (bind_body_weights _ _ _ _ _ e Hweights).
Qed.

Lemma QPUS_matching_witness :
  bind_qpus qubind oversized_circuit [] ∅ true = Raise (HTTPException 400).
Proof.
  apply (proj2 (QPUS_matching oversized_circuit [])). cbn. lia.
Defined.

(** ** Computed properties *)

Ltac crack_name name :=
  first
    [ right; reflexivity
    | destruct name as [|[[|] [|] [|] [|] [|] [|] [|] [|]] name];
      [ first [right; reflexivity | left; cbn; tauto] | crack_name name .. ] ].

Lemma computed_property_cases prop_name qpu circuit :
  In prop_name computed_names \/
  computed_property prop_name qpu circuit
  = Raise (ValueError ("Computed property " +:+ prop_name +:+ " not supported")).
Proof.
  unfold computed_property.
  generalize (Raise (ValueError ("Computed property " +:+ prop_name +:+ " not supported"))
              : result pyvalue).
  intros default. crack_name prop_name.
Qed.

(** X22: the computed properties are the five names [fidelity], [cost],
    [normalized_cost], [normalized_workload] and [circuit_depth].  Each of
    them has a value; any other name raises [ValueError], and a
    constraint on a computed property of another name raises it for every
    resource, before its comparison value is looked at. *)
Theorem computed_property_names prop_name qpu circuit :
  (In prop_name computed_names ->
   exists v, computed_property prop_name qpu circuit = Ok v) /\
  (~ In prop_name computed_names ->
   computed_property prop_name qpu circuit
   = Raise (ValueError ("Computed property " +:+ prop_name +:+ " not supported")) /\
   forall self constraint,
     Constraint.custom_fn constraint = None ->
     Constraint.target constraint = COMPUTED ->
     Constraint.property constraint = prop_name ->
     Constraint.evaluate constraint qpu circuit (Some self)
     = Raise (ValueError ("Computed property " +:+ prop_name +:+ " not supported"))).
Proof.
  split.
  - intros Hin. cbn in Hin.
    repeat (destruct Hin as [<-|Hin]; [eexists; reflexivity |]). contradiction.
  - intros Hnot.
    assert (computed_property prop_name qpu circuit
            = Raise (ValueError ("Computed property " +:+ prop_name +:+ " not supported")))
      as Hraise.
    { destruct (computed_property_cases prop_name qpu circuit) as [Hin|Hraise];
        [contradiction | exact Hraise]. }
    split; [exact Hraise |].
    intros self constraint Hfn Htarget Hproperty.
    unfold Constraint.evaluate, Constraint.property_value.
    by rewrite Hfn, Htarget, Hproperty, Hraise.
Qed.

Lemma computed_property_names_witness :
  computed_property "queue" idle_qpu measure_only_circuit
  = Raise (ValueError "Computed property queue not supported").
Proof.
  refine (proj1 (proj2 (computed_property_names "queue" idle_qpu measure_only_circuit) _)).
  cbn. intros Hin. repeat (destruct Hin as [Hin|Hin]; [discriminate |]). contradiction.
Defined.
